(** * Contact-form backend (app.py): validation, sanitization and dispatch

    A shallow embedding of [src/app.py].  Python [str] values are lists of
    Unicode code points; the three regular expressions of the module are
    written as patterns of a small backtracking matcher that follows the
    search order of Python's [re]; the request handler runs in a monad that
    records the calls it makes and carries Python exceptions. *)

From Stdlib Require Import String Ascii DecimalString.
From Stdlib Require Import ZArith List Bool Lia.
Import ListNotations.

Local Open Scope Z_scope.

(* ------------------------------------------------------------------ *)
(** ** Python strings *)

Module PyStr.

(** A [str] is a sequence of code points (0 .. 0x10FFFF). *)
Definition pystr : Type := list Z.

Definition cp (a : ascii) : Z := Z.of_N (N_of_ascii a).

(** An ASCII literal of the source as a [pystr]. *)
Definition lit (s : string) : pystr := map cp (list_ascii_of_string s).

Definition in_range (lo hi c : Z) : bool := (lo <=? c) && (c <=? hi).

Definition in_ranges (t : list (Z * Z)) (c : Z) : bool :=
  existsb (fun r => in_range (fst r) (snd r) c) t.

(** [Py_UNICODE_ISSPACE]: the code points for which [str.isspace] holds;
    [str.strip()] and the class [\s] of a [str] pattern both use it. *)
Definition whitespace_table : list (Z * Z) :=
  [ (0x9, 0xd); (0x1c, 0x20); (0x85, 0x85); (0xa0, 0xa0); (0x1680, 0x1680);
    (0x2000, 0x200a); (0x2028, 0x2029); (0x202f, 0x202f); (0x205f, 0x205f);
    (0x3000, 0x3000) ].

Definition isspace (c : Z) : bool := in_ranges whitespace_table c.

(** [Py_UNICODE_ISDIGIT]: the code points for which [str.isdigit] holds
    (Unicode 14.0.0, the database of CPython 3.11). *)
Definition digit_table : list (Z * Z) :=
  [ (0x30, 0x39); (0xb2, 0xb3); (0xb9, 0xb9); (0x660, 0x669); (0x6f0, 0x6f9);
    (0x7c0, 0x7c9); (0x966, 0x96f); (0x9e6, 0x9ef); (0xa66, 0xa6f);
    (0xae6, 0xaef); (0xb66, 0xb6f); (0xbe6, 0xbef); (0xc66, 0xc6f);
    (0xce6, 0xcef); (0xd66, 0xd6f); (0xde6, 0xdef); (0xe50, 0xe59);
    (0xed0, 0xed9); (0xf20, 0xf29); (0x1040, 0x1049); (0x1090, 0x1099);
    (0x1369, 0x1371); (0x17e0, 0x17e9); (0x1810, 0x1819); (0x1946, 0x194f);
    (0x19d0, 0x19da); (0x1a80, 0x1a89); (0x1a90, 0x1a99); (0x1b50, 0x1b59);
    (0x1bb0, 0x1bb9); (0x1c40, 0x1c49); (0x1c50, 0x1c59); (0x2070, 0x2070);
    (0x2074, 0x2079); (0x2080, 0x2089); (0x2460, 0x2468); (0x2474, 0x247c);
    (0x2488, 0x2490); (0x24ea, 0x24ea); (0x24f5, 0x24fd); (0x24ff, 0x24ff);
    (0x2776, 0x277e); (0x2780, 0x2788); (0x278a, 0x2792); (0xa620, 0xa629);
    (0xa8d0, 0xa8d9); (0xa900, 0xa909); (0xa9d0, 0xa9d9); (0xa9f0, 0xa9f9);
    (0xaa50, 0xaa59); (0xabf0, 0xabf9); (0xff10, 0xff19); (0x104a0, 0x104a9);
    (0x10a40, 0x10a43); (0x10d30, 0x10d39); (0x10e60, 0x10e68);
    (0x11052, 0x1105a); (0x11066, 0x1106f); (0x110f0, 0x110f9);
    (0x11136, 0x1113f); (0x111d0, 0x111d9); (0x112f0, 0x112f9);
    (0x11450, 0x11459); (0x114d0, 0x114d9); (0x11650, 0x11659);
    (0x116c0, 0x116c9); (0x11730, 0x11739); (0x118e0, 0x118e9);
    (0x11950, 0x11959); (0x11c50, 0x11c59); (0x11d50, 0x11d59);
    (0x11da0, 0x11da9); (0x16a60, 0x16a69); (0x16ac0, 0x16ac9);
    (0x16b50, 0x16b59); (0x1d7ce, 0x1d7ff); (0x1e140, 0x1e149);
    (0x1e2f0, 0x1e2f9); (0x1e950, 0x1e959); (0x1f100, 0x1f10a);
    (0x1fbf0, 0x1fbf9) ].

Definition isdigit_char (c : Z) : bool := in_ranges digit_table c.

(** [s.isdigit()]: every character is a digit and there is at least one. *)
Definition isdigit (s : pystr) : bool :=
  match s with
  | [] => false
  | _ => forallb isdigit_char s
  end.

(** Truth value of a string: [not s] holds for the empty string only. *)
Definition truthy (s : pystr) : bool :=
  match s with
  | [] => false
  | _ => true
  end.

Fixpoint lstrip (s : pystr) : pystr :=
  match s with
  | [] => []
  | c :: s' => if isspace c then lstrip s' else s
  end.

Definition rstrip (s : pystr) : pystr := rev (lstrip (rev s)).

(** [s.strip()] without argument. *)
Definition strip (s : pystr) : pystr := rstrip (lstrip s).

(** [s.replace(old, new)] for a one-character [old]. *)
Fixpoint replace (old : Z) (new : pystr) (s : pystr) : pystr :=
  match s with
  | [] => []
  | c :: s' => (if c =? old then new else [c]) ++ replace old new s'
  end.

(** [sep.join(items)]. *)
Fixpoint join (sep : pystr) (items : list pystr) : pystr :=
  match items with
  | [] => []
  | [x] => x
  | x :: rest => x ++ sep ++ join sep rest
  end.

(** [html.escape(s)] of the standard library, [quote=True]: five
    successive replacements, the ampersand first; 34 is the double
    quote. *)
Definition escape (s : pystr) : pystr :=
  let s := replace (cp "&") (lit "&amp;") s in
  let s := replace (cp "<") (lit "&lt;") s in
  let s := replace (cp ">") (lit "&gt;") s in
  let s := replace 34 (lit "&quot;") s in
  replace (cp "'") (lit "&#x27;") s.

End PyStr.
Import PyStr.

(* ------------------------------------------------------------------ *)
(** ** The fragment of [re] the module uses *)

Module Re.

(** A pattern is a sequence of items: one character of a class, or a
    greedy repetition [cls{min,}] of a class ([cls+] is [Many cls 1]). *)
Inductive item : Type :=
  | One (cls : Z -> bool)
  | Many (cls : Z -> bool) (min : nat).

Definition pattern : Type := list item.

Definition Lit (a : ascii) : item := One (Z.eqb (cp a)).

(** Greedy repetition with backtracking: take one more character of the
    class while possible, and fall back to the continuation [k] on what
    is left once at least [min] characters were taken.  The result is
    the input that remains after the whole match. *)
Fixpoint match_many (cls : Z -> bool) (k : pystr -> option pystr)
    (min : nat) (s : pystr) : option pystr :=
  let stop := match min with O => k s | S _ => None end in
  match s with
  | [] => stop
  | c :: s' =>
      if cls c then
        match match_many cls k (Nat.pred min) s' with
        | Some r => Some r
        | None => stop
        end
      else stop
  end.

(** Match pattern [p] at the start of [s]; [at_end] decides what may
    follow the last item. *)
Fixpoint match_here (p : pattern) (at_end : pystr -> option pystr)
    (s : pystr) : option pystr :=
  match p with
  | [] => at_end s
  | One cls :: p' =>
      match s with
      | [] => None
      | c :: s' => if cls c then match_here p' at_end s' else None
      end
  | Many cls min :: p' => match_many cls (match_here p' at_end) min s
  end.

(** No anchor after the pattern: anything may follow. *)
Definition anywhere (s : pystr) : option pystr := Some s.

(** [$] without [re.MULTILINE]: the end of the string, or just before a
    line feed that is the last character of the string. *)
Definition dollar (s : pystr) : option pystr :=
  match s with
  | [] => Some []
  | [c] => if c =? 10 then Some s else None
  | _ => None
  end.

(** [\Z], the end of the string (what [re.fullmatch] asks for). *)
Definition end_of_string (s : pystr) : option pystr :=
  match s with
  | [] => Some []
  | _ => None
  end.

Definition is_some {A : Type} (o : option A) : bool :=
  match o with
  | Some _ => true
  | None => false
  end.

(** [bool(re.match(p, s))]; the pattern's [^] adds nothing to [match]. *)
Definition re_match (p : pattern) (at_end : pystr -> option pystr)
    (s : pystr) : bool :=
  is_some (match_here p at_end s).

(** [bool(re.fullmatch(p, s))]. *)
Definition re_fullmatch (p : pattern) (s : pystr) : bool :=
  is_some (match_here p end_of_string s).

(** Number of characters of the match of [p] at the start of [s]. *)
Definition match_len (p : pattern) (s : pystr) : option nat :=
  match match_here p anywhere s with
  | Some r => Some (length s - length r)%nat
  | None => None
  end.

(** [re.sub(p, '', s)] for a pattern that matches no empty string: scan
    from the left, delete the match found at the current position and go
    on after it, keep the character when nothing matches there.  [skip]
    counts the characters of the current match still to delete. *)
Fixpoint sub_from (p : pattern) (skip : nat) (s : pystr) : pystr :=
  match s with
  | [] => []
  | c :: s' =>
      match skip with
      | S n => sub_from p n s'
      | O =>
          match match_len p s with
          | Some (S n) => sub_from p n s'
          | _ => c :: sub_from p O s'
          end
      end
  end.

Definition re_sub (p : pattern) (s : pystr) : pystr := sub_from p O s.

(** [bool(re.search(p, s))]: a match at some position. *)
Fixpoint re_search (p : pattern) (s : pystr) : bool :=
  match match_here p anywhere s with
  | Some _ => true
  | None =>
      match s with
      | [] => false
      | _ :: s' => re_search p s'
      end
  end.

End Re.
Import Re.

(* ------------------------------------------------------------------ *)
(** ** sanitize_input, validate_email, validate_phone *)

Definition is_lower (c : Z) : bool := in_range (cp "a") (cp "z") c.
Definition is_upper (c : Z) : bool := in_range (cp "A") (cp "Z") c.
Definition is_09 (c : Z) : bool := in_range (cp "0") (cp "9") c.
Definition one_of (s : string) (c : Z) : bool := existsb (Z.eqb c) (lit s).

(** [r'<[^>]+>'] *)
Definition not_gt (c : Z) : bool := negb (c =? cp ">").
Definition tag_pattern : pattern := [Lit "<"; Many not_gt 1; Lit ">"].

(** [r'[\x00-\x1f\x7f-\x9f]'] *)
Definition is_control (c : Z) : bool :=
  in_range 0x00 0x1f c || in_range 0x7f 0x9f c.
Definition control_pattern : pattern := [One is_control].

Definition sanitize_input (text : pystr) : pystr :=
  if negb (truthy text) then []
  else
    (* Remove HTML tags *)
    let text := re_sub tag_pattern text in
    (* Escape special HTML characters *)
    let text := escape text in
    (* Remove null bytes and control characters *)
    let text := re_sub control_pattern text in
    (* Strip whitespace *)
    strip text.

(** [r'^[a-zA-Z0-9._%+-]+@[a-zA-Z0-9.-]+\.[a-zA-Z]{2,}$'], the classes
    and the items between [^] and [$]. *)
Definition local_char (c : Z) : bool :=
  is_lower c || is_upper c || is_09 c || one_of "._%+-" c.
Definition domain_char (c : Z) : bool :=
  is_lower c || is_upper c || is_09 c || one_of ".-" c.
Definition alpha_char (c : Z) : bool := is_lower c || is_upper c.

Definition email_pattern : pattern :=
  [Many local_char 1; Lit "@"; Many domain_char 1; Lit "."; Many alpha_char 2].

Definition validate_email (email : pystr) : bool :=
  if negb (truthy email) then false
  else re_match email_pattern dollar email.

(** [r'[\s\-\(\)\+]'] *)
Definition phone_format_char (c : Z) : bool := isspace c || one_of "-()+" c.
Definition phone_pattern : pattern := [One phone_format_char].

Definition validate_phone (phone : pystr) : bool :=
  if negb (truthy phone) then true (* Phone is optional *)
  else
    (* Remove common phone formatting characters *)
    let cleaned := re_sub phone_pattern phone in
    (* Check if remaining characters are digits *)
    isdigit cleaned && (10 <=? length cleaned)%nat.

(* ------------------------------------------------------------------ *)
(** ** Exceptions, recorded calls and the handler monad *)

Module Py.

(** The exception classes that can reach the handler's two [except]
    clauses.  [RequestsJSONDecodeError] is what [Response.json()] raises
    from requests 2.27 on; before, it raised a plain [ValueError]. *)
Inductive exn_class : Type :=
  | Timeout
  | ConnectionError
  | HTTPError
  | RequestsJSONDecodeError
  | OtherRequestException
  | ValueError
  | AttributeError
  | OtherException.

(** [issubclass(cls, requests.exceptions.RequestException)] *)
Definition is_request_exception (c : exn_class) : bool :=
  match c with
  | Timeout | ConnectionError | HTTPError
  | RequestsJSONDecodeError | OtherRequestException => true
  | ValueError | AttributeError | OtherException => false
  end.

(** An exception object: its class and [str(e)]. *)
Record exn : Type := Exn { exn_cls : exn_class; exn_str : pystr }.

Inductive outcome (A : Type) : Type :=
  | Ret (a : A)
  | Raise (e : exn).
Arguments Ret {A} a.
Arguments Raise {A} e.

(** What [json.loads] builds. *)
#[warnings="-register-all"]
Inductive json : Type :=
  | JNull
  | JBool (b : bool)
  | JInt (n : Z)
  | JFloat (nonzero : bool)
  | JStr (s : pystr)
  | JArr (items : list json)
  | JObj (members : list (pystr * json)).

(** Truth value of a Python object built from JSON. *)
Definition json_truthy (v : json) : bool :=
  match v with
  | JNull => false
  | JBool b => b
  | JInt n => negb (n =? 0)
  | JFloat nonzero => nonzero
  | JStr s => truthy s
  | JArr items => match items with [] => false | _ => true end
  | JObj members => match members with [] => false | _ => true end
  end.

(** [a == b] on strings. *)
Fixpoint str_eqb (a b : pystr) : bool :=
  match a, b with
  | [], [] => true
  | x :: a', y :: b' => (x =? y) && str_eqb a' b'
  | _, _ => false
  end.

(** Lookup in the [dict] of a JSON object: the last member with the key
    wins. *)
Fixpoint dict_lookup (members : list (pystr * json)) (key : pystr)
    : option json :=
  match members with
  | [] => None
  | (k, v) :: rest =>
      match dict_lookup rest key with
      | Some v' => Some v'
      | None => if str_eqb k key then Some v else None
      end
  end.

(** [type(v).__name__] *)
Definition type_name (v : json) : pystr :=
  match v with
  | JNull => lit "NoneType"
  | JBool _ => lit "bool"
  | JInt _ => lit "int"
  | JFloat _ => lit "float"
  | JStr _ => lit "str"
  | JArr _ => lit "list"
  | JObj _ => lit "dict"
  end.

(** [obj.get(key)]: [None] for a missing key of a [dict]; the other
    JSON values have no [get] attribute. *)
Definition json_get (obj : json) (key : pystr) : outcome json :=
  match obj with
  | JObj members =>
      match dict_lookup members key with
      | Some v => Ret v
      | None => Ret JNull
      end
  | _ =>
      Raise (Exn AttributeError
               (lit "'" ++ type_name obj
                ++ lit "' object has no attribute 'get'"))
  end.

(** The argument of [requests.post]. *)
Record http_request : Type := HttpRequest {
  req_url : pystr;
  req_chat_id : pystr;
  req_text : pystr;
  req_parse_mode : pystr;
  req_timeout : Z
}.

(** A [requests.Response]: [resp_json] is what [.json()] returns or
    raises for the body. *)
Record http_response : Type := HttpResponse {
  status_code : Z;
  reason : pystr;
  resp_url : pystr;
  resp_json : outcome json
}.

(** The calls the handler makes, in order. *)
Inductive event : Type :=
  | Sanitize (text : pystr)
  | HttpPost (req : http_request)
  | Print (text : pystr).

Definition M (A : Type) : Type := list event -> outcome A * list event.

Definition ret {A : Type} (a : A) : M A := fun t => (Ret a, t).

Definition bind {A B : Type} (m : M A) (f : A -> M B) : M B :=
  fun t =>
    match m t with
    | (Ret a, t') => f a t'
    | (Raise e, t') => (Raise e, t')
    end.

Definition emit (ev : event) : M unit := fun t => (Ret tt, t ++ [ev]).

Definition lift {A : Type} (o : outcome A) : M A := fun t => (o, t).

(** [try: body  except <classes>: handler] *)
Definition try_except {A : Type} (body : M A) (catches : exn_class -> bool)
    (handler : exn -> M A) : M A :=
  fun t =>
    match body t with
    | (Ret a, t') => (Ret a, t')
    | (Raise e, t') =>
        if catches (exn_cls e) then handler e t' else (Raise e, t')
    end.

End Py.
Import Py.

Notation "x <- m ;; k" := (bind m (fun x => k))
  (at level 61, m at next level, right associativity).
Notation "m ;;; k" := (bind m (fun _ => k))
  (at level 61, right associativity).

(* ------------------------------------------------------------------ *)
(** ** Configuration, formatting and the /submit handler *)

(** The module-level settings.  In the source both are the placeholder
    literals; a deployment replaces them. *)
Record config : Type := Config {
  TELEGRAM_BOT_TOKEN : pystr;
  TELEGRAM_CHAT_ID : pystr
}.

Definition token_placeholder : pystr := lit "YOUR_BOT_TOKEN_HERE".
Definition chat_id_placeholder : pystr := lit "YOUR_CHAT_ID_HERE".

Definition source_config : config :=
  Config token_placeholder chat_id_placeholder.

Definition TELEGRAM_API_URL (cfg : config) : pystr :=
  lit "https://api.telegram.org/bot" ++ TELEGRAM_BOT_TOKEN cfg
    ++ lit "/sendMessage".

(** What surrounds one request: the clock, already rendered by
    [strftime("%Y-%m-%d %H:%M:%S")], and the outcome of
    [requests.post]. *)
Record environment : Type := Environment {
  now_text : pystr;
  post : http_request -> outcome http_response
}.

Definition nl : pystr := [10].

(** The f-string of [format_message_for_telegram]; [timestamp] is the
    text the function gets from [datetime.now().strftime(..)], which the
    handler takes from the environment. *)
Definition format_message_for_telegram (timestamp name email phone message
    : pystr) : pystr :=
  nl ++ [0x1f514] ++ lit " *New Contact Form Submission*" ++ nl
  ++ nl
  ++ [0x1f4c5] ++ lit " *Date:* " ++ timestamp ++ nl
  ++ [0x1f4cd] ++ lit " *Location:* McDonald's NYC - Times Square" ++ nl
  ++ nl
  ++ [0x1f464] ++ lit " *Name:* " ++ name ++ nl
  ++ [0x1f4e7] ++ lit " *Email:* " ++ email ++ nl
  ++ [0x1f4f1] ++ lit " *Phone:* "
  ++ (if truthy phone then phone else lit "Not provided") ++ nl
  ++ nl
  ++ [0x1f4ac] ++ lit " *Message:*" ++ nl
  ++ message ++ nl
  ++ nl
  ++ lit "---" ++ nl
  ++ lit "This message was sent from the McDonald's Times Square contact form."
  ++ nl.

(** [request.form]: the decoded fields in the order received;
    [form.get(key, default)] gives the first value of the key.  The
    handler is modelled from a body that decoded: a body the framework
    refuses raises at this access, before any field is read. *)
Definition form_data : Type := list (pystr * pystr).

Fixpoint form_get (form : form_data) (key default : pystr) : pystr :=
  match form with
  | [] => default
  | (k, v) :: rest => if str_eqb k key then v else form_get rest key default
  end.

(** [request.form.get(key, '').strip()] *)
Definition field (form : form_data) (key : string) : pystr :=
  strip (form_get form (lit key) []).

(** [jsonify({'success': .., 'message': ..}), status] *)
Record response : Type := Response {
  status : Z;
  success : bool;
  message : pystr
}.

Definition msg_name_required := lit "Name is required".
Definition msg_name_short := lit "Name must be at least 2 characters long".
Definition msg_name_long := lit "Name must be less than 100 characters".
Definition msg_email_required := lit "Email is required".
Definition msg_email_invalid := lit "Invalid email format".
Definition msg_message_required := lit "Message is required".
Definition msg_message_short :=
  lit "Message must be at least 10 characters long".
Definition msg_message_long :=
  lit "Message must be less than 1000 characters".
Definition msg_phone_invalid := lit "Invalid phone number format".
Definition msg_config :=
  lit "Server configuration error: Telegram Bot Token or Chat ID not configured".
Definition msg_thanks :=
  lit "Thank you! Your message has been sent successfully. We will get back to you soon.".
Definition msg_failed := lit "Failed to send message. Please try again later.".
Definition msg_unexpected :=
  lit "An unexpected error occurred. Please try again later.".

(** Lines 112-135: the list [validation_errors] after the four blocks,
    each appending to the list the previous one left. *)
Definition collect_validation_errors (name email phone message : pystr)
    : list pystr :=
  let validation_errors : list pystr := [] in
  let validation_errors :=
    if negb (truthy name) then validation_errors ++ [msg_name_required]
    else if (length name <? 2)%nat then validation_errors ++ [msg_name_short]
    else if (100 <? length name)%nat then validation_errors ++ [msg_name_long]
    else validation_errors in
  let validation_errors :=
    if negb (truthy email) then validation_errors ++ [msg_email_required]
    else if negb (validate_email email)
      then validation_errors ++ [msg_email_invalid]
    else validation_errors in
  let validation_errors :=
    if negb (truthy message) then validation_errors ++ [msg_message_required]
    else if (length message <? 10)%nat
      then validation_errors ++ [msg_message_short]
    else if (1000 <? length message)%nat
      then validation_errors ++ [msg_message_long]
    else validation_errors in
  (* Validate optional phone field *)
  let validation_errors :=
    if truthy phone && negb (validate_phone phone)
      then validation_errors ++ [msg_phone_invalid]
    else validation_errors in
  validation_errors.

(** A call of [sanitize_input], recorded. *)
Definition call_sanitize (text : pystr) : M pystr :=
  emit (Sanitize text) ;;; ret (sanitize_input text).

(** [requests.post(url, json=payload, timeout=10)] *)
Definition requests_post (env : environment) (req : http_request)
    : M http_response :=
  emit (HttpPost req) ;;; lift (post env req).

Definition decimal (n : Z) : pystr := lit (NilZero.string_of_int (Z.to_int n)).

(** [Response.raise_for_status()] of requests: an [HTTPError] for the
    status codes 400 to 599, nothing for the others. *)
Definition raise_for_status (r : http_response) : M unit :=
  let http_error_msg :=
    if (400 <=? status_code r) && (status_code r <? 500) then
      decimal (status_code r) ++ lit " Client Error: " ++ reason r
        ++ lit " for url: " ++ resp_url r
    else if (500 <=? status_code r) && (status_code r <? 600) then
      decimal (status_code r) ++ lit " Server Error: " ++ reason r
        ++ lit " for url: " ++ resp_url r
    else [] in
  if truthy http_error_msg then lift (Raise (Exn HTTPError http_error_msg))
  else ret tt.

Definition submit_contact_form (cfg : config) (env : environment)
    (form : form_data) : M response :=
  try_except
    ((* Get form data *)
     let name := field form "name" in
     let email := field form "email" in
     let phone := field form "phone" in
     let message := field form "message" in
     (* Validate required fields *)
     let validation_errors :=
       collect_validation_errors name email phone message in
     (* Return validation errors if any *)
     match validation_errors with
     | _ :: _ =>
         ret (Response 400 false
                (lit "Validation errors: "
                 ++ join (lit ", ") validation_errors))
     | [] =>
         (* Sanitize all input *)
         name <- call_sanitize name ;;
         email <- call_sanitize email ;;
         phone <- (if truthy phone then call_sanitize phone else ret []) ;;
         message <- call_sanitize message ;;
         (* Check if Telegram credentials are configured *)
         if str_eqb (TELEGRAM_BOT_TOKEN cfg) token_placeholder
            || str_eqb (TELEGRAM_CHAT_ID cfg) chat_id_placeholder
         then ret (Response 500 false msg_config)
         else
           (* Format message for Telegram *)
           let telegram_message :=
             format_message_for_telegram (now_text env) name email phone
               message in
           (* Send message via Telegram Bot API *)
           let telegram_payload :=
             HttpRequest (TELEGRAM_API_URL cfg) (TELEGRAM_CHAT_ID cfg)
               telegram_message (lit "Markdown") 10 in
           try_except
             (telegram_response <- requests_post env telegram_payload ;;
              raise_for_status telegram_response ;;;
              (* Check if Telegram API returned success *)
              body <- lift (resp_json telegram_response) ;;
              ok <- lift (json_get body (lit "ok")) ;;
              if json_truthy ok
              then ret (Response 200 true msg_thanks)
              else ret (Response 500 false msg_failed))
             is_request_exception
             (fun e =>
                emit (Print (lit "Telegram API error: " ++ exn_str e)) ;;;
                ret (Response 500 false msg_failed))
     end)
    (fun _ => true)
    (fun e =>
       emit (Print (lit "Unexpected error: " ++ exn_str e)) ;;;
       ret (Response 500 false msg_unexpected)).

(** One request, from an empty record of calls. *)
Definition handle_submit (cfg : config) (env : environment)
    (form : form_data) : outcome response * list event :=
  submit_contact_form cfg env form [].

(** [GET /health] *)
Definition health_check : pystr * pystr * Z :=
  (lit "healthy", lit "McDonald's NYC - Times Square Contact Form API", 200).

(* ------------------------------------------------------------------ *)
(** ** What the properties are stated with *)

(** The characters [html.escape] rewrites. *)
Definition is_special (c : Z) : bool :=
  (c =? cp "&") || (c =? cp "<") || (c =? cp ">") || (c =? 34)
  || (c =? cp "'").

(** The characters an accepted e-mail address is made of. *)
Definition email_char (c : Z) : bool :=
  local_char c || domain_char c || alpha_char c || (c =? cp "@").

(** The e-mail rule in the words of the specification:
    [local-part@domain.tld] with a non-empty local part of
    [[a-zA-Z0-9._%+-]], a non-empty domain of [[a-zA-Z0-9.-]] and a tld
    of at least two letters. *)
Definition spec_email_matches (s : pystr) : Prop :=
  exists local domain tld,
    s = local ++ lit "@" ++ domain ++ lit "." ++ tld /\
    local <> [] /\ forallb local_char local = true /\
    domain <> [] /\ forallb domain_char domain = true /\
    (2 <= length tld)%nat /\ forallb alpha_char tld = true.

(** What the matcher accepts with an arbitrary condition [e] after the
    pattern: the three parts, then a rest that [e] accepts. *)
Definition email_parts (e : pystr -> option pystr) (s : pystr) : Prop :=
  exists local domain tld rest,
    s = local ++ cp "@" :: domain ++ cp "." :: tld ++ rest /\
    (1 <= length local)%nat /\ forallb local_char local = true /\
    (1 <= length domain)%nat /\ forallb domain_char domain = true /\
    (2 <= length tld)%nat /\ forallb alpha_char tld = true /\
    e rest <> None.

(** The characters the specification removes from a phone value. *)
Definition spec_phone_removed (c : Z) : bool := one_of " -()+" c.

(** The error list the handler builds for a form. *)
Definition validation_errors_of (form : form_data) : list pystr :=
  collect_validation_errors (field form "name") (field form "email")
    (field form "phone") (field form "message").

(** The rules of one field at a time. *)
Definition name_errors (name : pystr) : list pystr :=
  if negb (truthy name) then [msg_name_required]
  else if (length name <? 2)%nat then [msg_name_short]
  else if (100 <? length name)%nat then [msg_name_long]
  else [].

Definition email_errors (email : pystr) : list pystr :=
  if negb (truthy email) then [msg_email_required]
  else if negb (validate_email email) then [msg_email_invalid]
  else [].

Definition message_errors (message : pystr) : list pystr :=
  if negb (truthy message) then [msg_message_required]
  else if (length message <? 10)%nat then [msg_message_short]
  else if (1000 <? length message)%nat then [msg_message_long]
  else [].

Definition phone_errors (phone : pystr) : list pystr :=
  if truthy phone && negb (validate_phone phone) then [msg_phone_invalid]
  else [].

(** The calls of [sanitize_input] of a request that passed validation. *)
Definition sanitize_calls (form : form_data) : list event :=
  [Sanitize (field form "name"); Sanitize (field form "email")]
  ++ (if truthy (field form "phone") then [Sanitize (field form "phone")]
      else [])
  ++ [Sanitize (field form "message")].

(** The request the handler sends for a form. *)
Definition sent_request (cfg : config) (env : environment)
    (form : form_data) : http_request :=
  HttpRequest (TELEGRAM_API_URL cfg) (TELEGRAM_CHAT_ID cfg)
    (format_message_for_telegram (now_text env)
       (sanitize_input (field form "name"))
       (sanitize_input (field form "email"))
       (if truthy (field form "phone")
        then sanitize_input (field form "phone") else [])
       (sanitize_input (field form "message")))
    (lit "Markdown") 10.

Definition unconfigured (cfg : config) : bool :=
  str_eqb (TELEGRAM_BOT_TOKEN cfg) token_placeholder
  || str_eqb (TELEGRAM_CHAT_ID cfg) chat_id_placeholder.

Definition is_http_post (ev : event) : bool :=
  match ev with
  | HttpPost _ => true
  | _ => false
  end.

(** Status codes for which [raise_for_status] raises. *)
Definition error_status (r : http_response) : bool :=
  (400 <=? status_code r) && (status_code r <? 600).

(** The body is a JSON object whose [ok] is missing or false in
    Python's sense. *)
Definition remote_rejection (r : http_response) : bool :=
  match resp_json r with
  | Ret (JObj members) =>
      match dict_lookup members (lit "ok") with
      | Some v => negb (json_truthy v)
      | None => true
      end
  | _ => false
  end.

(** The failures of a dispatch: [requests.post] raised a
    [RequestException], or the status is 4xx or 5xx, or the remote
    rejected the message. *)
Definition dispatch_fails (o : outcome http_response) : bool :=
  match o with
  | Raise e => is_request_exception (exn_cls e)
  | Ret r => error_status r || remote_rejection r
  end.

(** The failures of a dispatch in the words of the specification: any
    status outside 200-299 is one. *)
Definition spec_dispatch_fails (o : outcome http_response) : bool :=
  match o with
  | Raise e => is_request_exception (exn_cls e)
  | Ret r => negb (in_range 200 299 (status_code r)) || remote_rejection r
  end.

(** Sample data: the submission of the specification's end-to-end
    check, a deployed configuration, and remotes that answer a fixed
    response. *)
Definition form_ok : form_data :=
  [(lit "name", lit "Al"); (lit "email", lit "a@b.co");
   (lit "message", lit "1234567890")].

Definition form_unnamed : form_data :=
  [(lit "name", []); (lit "email", lit "a@b.co");
   (lit "message", lit "1234567890")].

Definition form_short_name : form_data :=
  [(lit "name", lit "A"); (lit "email", lit "a@b.co");
   (lit "message", lit "1234567890")].

Definition form_no_message : form_data :=
  [(lit "name", lit "Al"); (lit "email", lit "a@b.co")].

Definition deployed_config : config :=
  Config (lit "123456:ABC") (lit "-100200").

Definition accepted : http_response :=
  HttpResponse 200 (lit "OK") (TELEGRAM_API_URL deployed_config)
    (Ret (JObj [(lit "ok", JBool true)])).

Definition fixed_remote (o : outcome http_response) : environment :=
  Environment (lit "2024-01-01 12:00:00") (fun _ => o).


Definition not_modified_ok : http_response :=
  HttpResponse 304 (lit "Not Modified") (TELEGRAM_API_URL deployed_config)
    (Ret (JObj [(lit "ok", JBool true)])).

Definition timed_out : outcome http_response :=
  Raise (Exn Timeout (lit "Read timed out. (read timeout=10)")).

(** The inner [try] block, from the call of [requests.post] on. *)
Definition send (env : environment) (req : http_request) : M response :=
  try_except
    (telegram_response <- requests_post env req ;;
     raise_for_status telegram_response ;;;
     body <- lift (resp_json telegram_response) ;;
     ok <- lift (json_get body (lit "ok")) ;;
     if json_truthy ok
     then ret (Response 200 true msg_thanks)
     else ret (Response 500 false msg_failed))
    is_request_exception
    (fun e =>
       emit (Print (lit "Telegram API error: " ++ exn_str e)) ;;;
       ret (Response 500 false msg_failed)).

(** The remote accepted: no 4xx or 5xx status and a JSON object whose
    [ok] is true in Python's sense. *)
Definition delivered (o : outcome http_response) : bool :=
  match o with
  | Raise _ => false
  | Ret r =>
      negb (error_status r) &&
      match resp_json r with
      | Ret (JObj members) =>
          match dict_lookup members (lit "ok") with
          | Some v => json_truthy v
          | None => false
          end
      | _ => false
      end
  end.

(** [.json()] raised a [RequestException] on a response whose status
    passed. *)
Definition undecodable (o : outcome http_response) : bool :=
  match o with
  | Raise _ => false
  | Ret r =>
      negb (error_status r) &&
      match resp_json r with
      | Raise e => is_request_exception (exn_cls e)
      | Ret _ => false
      end
  end.

(** What only the outer [except Exception] catches: an exception of
    [requests.post] or of [.json()] that is no [RequestException], or a
    JSON body that is no object. *)
Definition unexpected_failure (o : outcome http_response) : bool :=
  match o with
  | Raise e => negb (is_request_exception (exn_cls e))
  | Ret r =>
      negb (error_status r) &&
      match resp_json r with
      | Raise e => negb (is_request_exception (exn_cls e))
      | Ret (JObj _) => false
      | Ret _ => true
      end
  end.

Definition is_sanitize (ev : event) : bool :=
  match ev with
  | Sanitize _ => true
  | _ => false
  end.

(** No validation error, as a boolean. *)
Definition passes (form : form_data) : bool :=
  match validation_errors_of form with
  | [] => true
  | _ :: _ => false
  end.

(** What [html.escape] writes for one character. *)
Definition entity (c : Z) : pystr :=
  if c =? cp "&" then lit "&amp;"
  else if c =? cp "<" then lit "&lt;"
  else if c =? cp ">" then lit "&gt;"
  else if c =? 34 then lit "&quot;"
  else if c =? cp "'" then lit "&#x27;"
  else [c].



(* ------------------------------------------------------------------ *)
(** ** Sample evaluations *)

Example sanitize_tags_and_entities :
  sanitize_input (lit "  <b>Hi</b> <> a<b & 'c' > ") = lit "Hi &lt;&gt; a".
Proof. vm_compute. reflexivity. Qed.

Example sanitize_comparison_signs :
  sanitize_input (lit "a < b and c > d <<x>y") = lit "a  d y".
Proof. vm_compute. reflexivity. Qed.

Example validate_email_samples :
  map validate_email
    [lit "a@b.co"; lit "a@b.c"; lit "a.b+c@x-y.z.com"; lit "a@b.co" ++ [10];
     lit "a@b.co" ++ [10; 10]; lit "a@@b.co"; lit "@b.co"; lit "a@.co";
     lit "a@b.c0m"]
  = [true; false; true; true; false; false; false; false; false].
Proof. vm_compute. reflexivity. Qed.

Example validate_phone_samples :
  map validate_phone
    [[]; lit "+1 (212) 555-0100"; lit "123456789";
     lit "12345" ++ [9] ++ lit "67890"; lit "12345a67890"; lit "()"]
  = [true; true; false; true; false; false].
Proof. vm_compute. reflexivity. Qed.

Example raise_for_status_404 :
  raise_for_status (HttpResponse 404 (lit "Not Found") (lit "u") (Ret JNull)) []
  = (Raise (Exn HTTPError (lit "404 Client Error: Not Found for url: u")), []).
Proof. vm_compute. reflexivity. Qed.

Example submit_delivered :
  handle_submit deployed_config (fixed_remote (Ret accepted)) form_ok
  = (Ret (Response 200 true msg_thanks),
     sanitize_calls form_ok
     ++ [HttpPost (sent_request deployed_config (fixed_remote (Ret accepted))
                     form_ok)]).
Proof. vm_compute. reflexivity. Qed.

Example submit_placeholders :
  handle_submit source_config (fixed_remote (Ret accepted)) form_ok
  = (Ret (Response 500 false msg_config), sanitize_calls form_ok).
Proof. vm_compute. reflexivity. Qed.

Example submit_short_name :
  handle_submit source_config (fixed_remote (Ret accepted)) form_short_name
  = (Ret (Response 400 false
            (lit "Validation errors: Name must be at least 2 characters long")),
     []).
Proof. vm_compute. reflexivity. Qed.

Example submit_no_message :
  handle_submit source_config (fixed_remote (Ret accepted)) form_no_message
  = (Ret (Response 400 false (lit "Validation errors: Message is required")),
     []).
Proof. vm_compute. reflexivity. Qed.

Example submit_empty_form :
  handle_submit source_config (fixed_remote (Ret accepted)) []
  = (Ret (Response 400 false
            (lit "Validation errors: Name is required, Email is required, Message is required")),
     []).
Proof. vm_compute. reflexivity. Qed.

Example submit_timeout_logged :
  handle_submit deployed_config (fixed_remote timed_out) form_ok
  = (Ret (Response 500 false msg_failed),
     sanitize_calls form_ok
     ++ [HttpPost (sent_request deployed_config (fixed_remote timed_out)
                     form_ok);
         Print (lit "Telegram API error: Read timed out. (read timeout=10)")]).
Proof. vm_compute. reflexivity. Qed.

(* ------------------------------------------------------------------ *)
(** ** Characters and classes *)

Lemma in_range_true lo hi c : in_range lo hi c = true <-> lo <= c <= hi.
Proof. unfold in_range. rewrite andb_true_iff, !Z.leb_le. tauto. Qed.

Lemma in_range_false lo hi c : in_range lo hi c = false <-> c < lo \/ hi < c.
Proof. unfold in_range. rewrite andb_false_iff, !Z.leb_gt. tauto. Qed.

(** Turn a goal or hypothesis on character classes into linear
    arithmetic on the code point. *)
Ltac class_unfold :=
  unfold local_char, domain_char, alpha_char, is_lower, is_upper, is_09,
    one_of, not_gt, is_control, phone_format_char, isspace, isdigit_char,
    in_ranges, whitespace_table, digit_table in *;
  cbn [existsb map list_ascii_of_string lit fst snd] in *;
  repeat match goal with
         | H : context [cp ?a] |- _ =>
             let v := eval vm_compute in (cp a) in change (cp a) with v in H
         | |- context [cp ?a] =>
             let v := eval vm_compute in (cp a) in change (cp a) with v
         end.

Ltac class_arith :=
  class_unfold;
  repeat match goal with
         | H : _ = true |- _ =>
             rewrite ?orb_true_iff, ?andb_true_iff, ?negb_true_iff,
               ?in_range_true, ?Z.eqb_eq, ?Z.eqb_neq, ?orb_false_iff,
               ?in_range_false, ?Z.leb_le in H; revert H
         | H : _ = false |- _ =>
             rewrite ?orb_false_iff, ?andb_false_iff, ?negb_false_iff,
               ?in_range_false, ?Z.eqb_eq, ?Z.eqb_neq, ?orb_true_iff,
               ?in_range_true in H; revert H
         end;
  rewrite ?orb_true_iff, ?andb_true_iff, ?negb_true_iff, ?orb_false_iff,
    ?andb_false_iff, ?negb_false_iff, ?in_range_true, ?in_range_false,
    ?Z.eqb_eq, ?Z.eqb_neq;
  intros; lia.

Lemma email_char_plain c :
  email_char c = true ->
  is_special c = false /\ is_control c = false /\ isspace c = false.
Proof.
  unfold email_char, is_special. intros H. repeat split; class_arith.
Qed.

(* ------------------------------------------------------------------ *)
(** ** strip *)

Lemma lstrip_head s :
  lstrip s = [] \/ exists c s', lstrip s = c :: s' /\ isspace c = false.
Proof.
  induction s as [|c s IH]; [now left|]. simpl.
  destruct (isspace c) eqn:E; [exact IH|]. right. now exists c, s.
Qed.

Lemma lstrip_fixed c s : isspace c = false -> lstrip (c :: s) = c :: s.
Proof. intros H. simpl. now rewrite H. Qed.

Lemma lstrip_idem s : lstrip (lstrip s) = lstrip s.
Proof.
  destruct (lstrip_head s) as [E | (c & s' & E & Hc)]; rewrite E;
    [reflexivity | now apply lstrip_fixed].
Qed.

Lemma lstrip_incl s c : In c (lstrip s) -> In c s.
Proof.
  induction s as [|d s IH]; simpl; [tauto|].
  destruct (isspace d); simpl; tauto.
Qed.

Lemma lstrip_snoc s c :
  isspace c = false -> lstrip (s ++ [c]) = lstrip s ++ [c].
Proof.
  intros Hc. induction s as [|d s IH]; simpl.
  - now rewrite Hc.
  - destruct (isspace d); [exact IH | reflexivity].
Qed.

Lemma rstrip_idem s : rstrip (rstrip s) = rstrip s.
Proof. unfold rstrip. now rewrite rev_involutive, lstrip_idem. Qed.

Lemma rstrip_cons c s :
  isspace c = false -> rstrip (c :: s) = c :: rstrip s.
Proof.
  intros Hc. unfold rstrip. simpl rev.
  now rewrite lstrip_snoc, rev_app_distr.
Qed.

Lemma rstrip_incl s c : In c (rstrip s) -> In c s.
Proof.
  unfold rstrip. intros H. apply in_rev in H. apply lstrip_incl in H.
  now apply in_rev.
Qed.

Lemma strip_incl s c : In c (strip s) -> In c s.
Proof. intros H. now apply lstrip_incl, rstrip_incl. Qed.

Lemma strip_idem s : strip (strip s) = strip s.
Proof.
  unfold strip.
  destruct (lstrip_head s) as [E | (c & s' & E & Hc)]; rewrite E.
  - reflexivity.
  - rewrite (rstrip_cons c s' Hc), (lstrip_fixed _ _ Hc).
    rewrite <- (rstrip_cons c s' Hc). apply rstrip_idem.
Qed.

(** A string without whitespace is left alone. *)
Lemma strip_no_space s :
  forallb (fun c => negb (isspace c)) s = true -> strip s = s.
Proof.
  intros H. unfold strip.
  assert (L : forall u, forallb (fun c => negb (isspace c)) u = true ->
                        lstrip u = u).
  { intros [|c u]; simpl; [reflexivity|]. rewrite andb_true_iff.
    intros [Hc _]. apply negb_true_iff in Hc. now rewrite Hc. }
  rewrite (L s H). unfold rstrip. rewrite L.
  - apply rev_involutive.
  - rewrite forallb_forall in *. intros c Hc. apply H. now apply in_rev.
Qed.

Lemma count_lstrip c s :
  isspace c = false -> count_occ Z.eq_dec (lstrip s) c = count_occ Z.eq_dec s c.
Proof.
  intros Hc. induction s as [|d s IH]; simpl; [reflexivity|].
  destruct (isspace d) eqn:E; [|reflexivity].
  destruct (Z.eq_dec d c); [congruence | exact IH].
Qed.

Lemma count_strip c s :
  isspace c = false -> count_occ Z.eq_dec (strip s) c = count_occ Z.eq_dec s c.
Proof.
  intros Hc. unfold strip, rstrip.
  now rewrite count_occ_rev, count_lstrip, count_occ_rev, count_lstrip.
Qed.

(* ------------------------------------------------------------------ *)
(** ** replace and html.escape *)

Lemma replace_absent old new s : ~ In old s -> replace old new s = s.
Proof.
  induction s as [|c s IH]; simpl; [reflexivity|]. intros H.
  destruct (Z.eqb_spec c old); [tauto|]. simpl. f_equal. tauto.
Qed.

Lemma replace_in old new s c :
  In c (replace old new s) -> (In c s /\ c <> old) \/ In c new.
Proof.
  induction s as [|d s IH]; simpl; [tauto|]. rewrite in_app_iff.
  intros [H | H].
  - destruct (Z.eqb_spec d old); [now right|].
    destruct H as [-> | []]. left. tauto.
  - destruct (IH H); tauto.
Qed.

Lemma count_replace old new s c :
  c <> old ->
  count_occ Z.eq_dec (replace old new s) c
  = (count_occ Z.eq_dec s c
     + count_occ Z.eq_dec new c * count_occ Z.eq_dec s old)%nat.
Proof.
  intros Hc. induction s as [|d s IH]; simpl; [lia|].
  rewrite count_occ_app, IH.
  destruct (Z.eqb_spec d old) as [-> | Hd].
  - destruct (Z.eq_dec old c); [congruence|].
    destruct (Z.eq_dec old old); [lia | congruence].
  - simpl. destruct (Z.eq_dec d c); destruct (Z.eq_dec d old);
      try congruence; lia.
Qed.

Lemma escape_plain s :
  forallb (fun c => negb (is_special c)) s = true -> escape s = s.
Proof.
  intros H. rewrite forallb_forall in H. unfold escape.
  assert (A : forall c, is_special c = true -> ~ In c s).
  { intros c Hc Hin. apply H in Hin. rewrite Hc in Hin. discriminate. }
  rewrite (replace_absent (cp "&")) by (apply A; reflexivity).
  rewrite (replace_absent (cp "<")) by (apply A; reflexivity).
  rewrite (replace_absent (cp ">")) by (apply A; reflexivity).
  rewrite (replace_absent 34) by (apply A; reflexivity).
  apply replace_absent, A. reflexivity.
Qed.

(** The output of [html.escape] keeps none of [<], [>], the two quotes. *)
Lemma escape_no_markup s c :
  In c (escape s) ->
  c <> cp "<" /\ c <> cp ">" /\ c <> 34 /\ c <> cp "'".
Proof.
  unfold escape. intros H.
  repeat match type of H with
         | In _ (replace _ _ _) =>
             apply replace_in in H; destruct H as [[H ?] | H]
         end;
  class_unfold;
  vm_compute in H; intuition lia.
Qed.

(* ------------------------------------------------------------------ *)
(** ** The matcher *)

Lemma match_many_sound cls k s :
  forall min r,
    match_many cls k min s = Some r ->
    exists pre post,
      s = pre ++ post /\ forallb cls pre = true /\
      (min <= length pre)%nat /\ k post = Some r.
Proof.
  induction s as [|c s IH]; intros min r H; simpl in H.
  - destruct min; [|discriminate]. exists [], []. auto.
  - assert (Stop : match min with O => k (c :: s) | S _ => None end = Some r
                   -> exists pre post, c :: s = pre ++ post /\
                        forallb cls pre = true /\
                        (min <= length pre)%nat /\ k post = Some r).
    { destruct min; [|discriminate]. intros E. exists [], (c :: s). auto. }
    destruct (cls c) eqn:Ec; [|auto].
    destruct (match_many cls k (Nat.pred min) s) as [r'|] eqn:Er; [|auto].
    injection H as ->. destruct (IH _ _ Er) as (pre & post & -> & Hp & Hl & Hk).
    exists (c :: pre), post. simpl. rewrite Ec, Hp. repeat split; auto. lia.
Qed.

Lemma match_many_complete cls k post :
  forall pre min,
    forallb cls pre = true -> (min <= length pre)%nat -> k post <> None ->
    match_many cls k min (pre ++ post) <> None.
Proof.
  induction pre as [|c pre IH]; intros min Hp Hl Hk.
  - simpl in Hl. assert (min = O) by lia. subst min.
    destruct post as [|c s]; simpl; [exact Hk|].
    destruct (cls c); [|exact Hk].
    destruct (match_many cls k O s); [discriminate | exact Hk].
  - simpl in Hp, Hl. apply andb_true_iff in Hp as [Hc Hp].
    simpl. rewrite Hc.
    specialize (IH (Nat.pred min) Hp ltac:(lia) Hk).
    destruct (match_many cls k (Nat.pred min) (pre ++ post));
      [discriminate | contradiction].
Qed.

Lemma match_One_inv cls p e s r :
  match_here (One cls :: p) e s = Some r ->
  exists c s', s = c :: s' /\ cls c = true /\ match_here p e s' = Some r.
Proof.
  simpl. destruct s as [|c s]; [discriminate|].
  destruct (cls c) eqn:E; [|discriminate]. intros H. now exists c, s.
Qed.

Lemma match_Many_inv cls min p e s r :
  match_here (Many cls min :: p) e s = Some r ->
  exists pre post,
    s = pre ++ post /\ forallb cls pre = true /\
    (min <= length pre)%nat /\ match_here p e post = Some r.
Proof. simpl. apply match_many_sound. Qed.

Lemma match_One_intro cls p e c s :
  cls c = true -> match_here p e s <> None ->
  match_here (One cls :: p) e (c :: s) <> None.
Proof. intros Hc H. simpl. now rewrite Hc. Qed.

Lemma match_Many_intro cls min p e pre post :
  forallb cls pre = true -> (min <= length pre)%nat ->
  match_here p e post <> None ->
  match_here (Many cls min :: p) e (pre ++ post) <> None.
Proof. intros. simpl. now apply match_many_complete. Qed.

Lemma is_some_true {A} (o : option A) : is_some o = true <-> o <> None.
Proof. destruct o; simpl; split; congruence. Qed.

(** Deleting the matches of a one-character class is a filter. *)
Lemma re_sub_class cls s :
  re_sub [One cls] s = filter (fun c => negb (cls c)) s.
Proof.
  unfold re_sub. induction s as [|c s IH]; [reflexivity|].
  cbn [sub_from]. unfold match_len, anywhere. cbn [match_here filter].
  destruct (cls c); cbn [negb].
  - replace (length (c :: s) - length s)%nat with 1%nat
      by (cbn [length]; lia).
    exact IH.
  - now rewrite IH.
Qed.

(** No [<], no tag: [re.sub] leaves the string as it is and
    [re.search] finds nothing. *)
Lemma tag_no_match_at c s :
  c <> cp "<" -> match_here tag_pattern anywhere (c :: s) = None.
Proof.
  intros H. unfold tag_pattern, Lit. cbn [match_here].
  destruct (Z.eqb_spec (cp "<") c); [congruence | reflexivity].
Qed.

Lemma re_sub_tag_plain s : ~ In (cp "<") s -> re_sub tag_pattern s = s.
Proof.
  unfold re_sub. induction s as [|c s IH]; [reflexivity|]. intros H.
  cbn [sub_from]. unfold match_len. rewrite tag_no_match_at.
  - f_equal. apply IH. intros Hin. apply H. now right.
  - intros ->. apply H. now left.
Qed.

Lemma re_search_tag_plain s :
  ~ In (cp "<") s -> re_search tag_pattern s = false.
Proof.
  induction s as [|c s IH]; [reflexivity|]. intros H.
  cbn [re_search]. rewrite tag_no_match_at.
  - apply IH. intros Hin. apply H. now right.
  - intros ->. apply H. now left.
Qed.

Lemma filter_all {A} (P : A -> bool) s :
  forallb P s = true -> filter P s = s.
Proof.
  induction s as [|c s IH]; simpl; [reflexivity|].
  rewrite andb_true_iff. intros [-> H]. now rewrite IH.
Qed.

Lemma count_filter (P : Z -> bool) s c :
  P c = true ->
  count_occ Z.eq_dec (filter P s) c = count_occ Z.eq_dec s c.
Proof.
  intros Hc. induction s as [|d s IH]; simpl; [reflexivity|].
  destruct (P d) eqn:E; simpl; destruct (Z.eq_dec d c); try congruence.
Qed.

(* ------------------------------------------------------------------ *)
(** ** sanitize_input *)

Lemma sanitize_unfold s :
  s <> [] ->
  sanitize_input s
  = strip (re_sub control_pattern (escape (re_sub tag_pattern s))).
Proof. destruct s; [congruence | reflexivity]. Qed.

Lemma sanitize_chars s c :
  In c (sanitize_input s) ->
  is_control c = false /\
  c <> cp "<" /\ c <> cp ">" /\ c <> 34 /\ c <> cp "'".
Proof.
  destruct s as [|d s]; [intros []|]. rewrite sanitize_unfold by discriminate.
  intros H. apply strip_incl in H. unfold control_pattern in H.
  rewrite re_sub_class in H. apply filter_In in H as [H Hc].
  apply negb_true_iff in Hc. split; [exact Hc|].
  now apply escape_no_markup in H.
Qed.

Lemma sanitize_stripped s : strip (sanitize_input s) = sanitize_input s.
Proof.
  destruct s as [|d s]; [reflexivity|].
  rewrite sanitize_unfold by discriminate. apply strip_idem.
Qed.

Lemma sanitize_no_lt s : ~ In (cp "<") (sanitize_input s).
Proof. intros H. apply sanitize_chars in H. tauto. Qed.

Lemma sanitize_no_control s :
  forallb (fun c => negb (is_control c)) (sanitize_input s) = true.
Proof.
  apply forallb_forall. intros c H. apply sanitize_chars in H.
  apply negb_true_iff. tauto.
Qed.

(** A string of plain characters that is already stripped is a fixed
    point. *)
Lemma sanitize_fixed t :
  ~ In (cp "<") t ->
  forallb (fun c => negb (is_special c)) t = true ->
  forallb (fun c => negb (is_control c)) t = true ->
  strip t = t ->
  sanitize_input t = t.
Proof.
  intros Hlt Hsp Hct Hst. destruct t as [|d t]; [reflexivity|].
  rewrite sanitize_unfold by discriminate.
  rewrite re_sub_tag_plain by exact Hlt. rewrite escape_plain by exact Hsp.
  unfold control_pattern. rewrite re_sub_class, filter_all by exact Hct.
  exact Hst.
Qed.

(** The letter [a] is counted through one pass: each ampersand adds
    one, from [&amp;]. *)
Lemma count_a_escape t :
  count_occ Z.eq_dec (escape t) (cp "a")
  = (count_occ Z.eq_dec t (cp "a") + count_occ Z.eq_dec t (cp "&"))%nat.
Proof.
  unfold escape. rewrite !count_replace by (vm_compute; discriminate).
  change (count_occ Z.eq_dec (lit "&amp;") (cp "a")) with 1%nat.
  change (count_occ Z.eq_dec (lit "&lt;") (cp "a")) with 0%nat.
  change (count_occ Z.eq_dec (lit "&gt;") (cp "a")) with 0%nat.
  change (count_occ Z.eq_dec (lit "&quot;") (cp "a")) with 0%nat.
  change (count_occ Z.eq_dec (lit "&#x27;") (cp "a")) with 0%nat.
  lia.
Qed.

Lemma count_a_sanitize t :
  ~ In (cp "<") t ->
  count_occ Z.eq_dec (sanitize_input t) (cp "a")
  = (count_occ Z.eq_dec t (cp "a") + count_occ Z.eq_dec t (cp "&"))%nat.
Proof.
  intros Hlt. destruct t as [|d t]; [reflexivity|].
  rewrite sanitize_unfold by discriminate.
  rewrite count_strip by reflexivity. unfold control_pattern.
  rewrite re_sub_class, count_filter by reflexivity.
  rewrite re_sub_tag_plain by exact Hlt. apply count_a_escape.
Qed.

(* ------------------------------------------------------------------ *)
(** ** validate_email *)

Lemma email_match_parts e s :
  match_here email_pattern e s <> None <-> email_parts e s.
Proof.
  unfold email_pattern, Lit, email_parts. split.
  - destruct (match_here _ e s) as [r|] eqn:H; [intros _ | congruence].
    apply match_Many_inv in H as (local & s1 & -> & Hl & Hnl & H).
    apply match_One_inv in H as (c1 & s2 & -> & Hc1 & H).
    apply match_Many_inv in H as (domain & s3 & -> & Hd & Hnd & H).
    apply match_One_inv in H as (c2 & s4 & -> & Hc2 & H).
    apply match_Many_inv in H as (tld & rest & -> & Ht & Hnt & H).
    apply Z.eqb_eq in Hc1, Hc2. subst c1 c2. cbn [match_here] in H.
    exists local, domain, tld, rest. repeat split; auto. congruence.
  - intros (local & domain & tld & rest & -> & Hnl & Hl & Hnd & Hd
            & Hnt & Ht & He).
    apply match_Many_intro; auto.
    apply match_One_intro; [apply Z.eqb_refl|].
    apply match_Many_intro; auto.
    apply match_One_intro; [apply Z.eqb_refl|].
    rewrite <- (app_nil_r rest), app_assoc. rewrite app_nil_r.
    apply match_Many_intro; auto.
Qed.

Ltac list_assoc :=
  cbn [lit map list_ascii_of_string app];
  repeat (rewrite <- app_assoc || rewrite <- app_comm_cons); reflexivity.

Lemma length_pos_nonempty {A} (l : list A) : (1 <= length l)%nat <-> l <> [].
Proof. destruct l; simpl; split; try congruence; lia. Qed.

Lemma fullmatch_iff_spec s :
  re_fullmatch email_pattern s = true <-> spec_email_matches s.
Proof.
  unfold re_fullmatch. rewrite is_some_true, email_match_parts.
  unfold email_parts, spec_email_matches. split.
  - intros (local & domain & tld & rest & -> & Hnl & Hl & Hnd & Hd
            & Hnt & Ht & He).
    destruct rest; [|now contradiction He]. rewrite app_nil_r.
    exists local, domain, tld. rewrite <- !length_pos_nonempty. auto 10.
  - intros (local & domain & tld & -> & Hnl & Hl & Hnd & Hd & Hnt & Ht).
    exists local, domain, tld, []. rewrite app_nil_r.
    rewrite !length_pos_nonempty. repeat split; auto. discriminate.
Qed.

Lemma spec_email_chars s :
  spec_email_matches s -> forallb email_char s = true.
Proof.
  intros (local & domain & tld & -> & _ & Hl & _ & Hd & _ & Ht).
  rewrite !forallb_app. unfold email_char.
  rewrite forallb_forall in Hl, Hd, Ht.
  repeat (apply andb_true_intro; split);
    try (apply forallb_forall; intros c Hc);
    try (rewrite ?Hl, ?Hd, ?Ht by assumption; rewrite ?orb_true_r;
         reflexivity).
Qed.

Lemma dollar_accepts rest :
  dollar rest <> None <-> rest = [] \/ rest = [10].
Proof.
  destruct rest as [|c [|d rest]]; unfold dollar.
  - split; [auto | discriminate].
  - destruct (Z.eqb_spec c 10) as [-> | Hc].
    + split; [now right | discriminate].
    + split; [congruence | intros [H | H]; congruence].
  - split; [congruence | intros [H | H]; discriminate].
Qed.

(** The whole behaviour of [validate_email]: the address, possibly
    followed by one line feed. *)
Lemma validate_email_spec s :
  validate_email s = true <->
  spec_email_matches s \/ exists s', s = s' ++ [10] /\ spec_email_matches s'.
Proof.
  assert (P : re_match email_pattern dollar s = true <->
              spec_email_matches s \/
              exists s', s = s' ++ [10] /\ spec_email_matches s').
  { unfold re_match. rewrite is_some_true, email_match_parts. split.
    - intros (local & domain & tld & rest & -> & Hnl & Hl & Hnd & Hd
              & Hnt & Ht & He).
      assert (S0 : spec_email_matches
                     (local ++ cp "@" :: domain ++ cp "." :: tld)).
      { exists local, domain, tld. rewrite <- !length_pos_nonempty. auto 10. }
      apply dollar_accepts in He as [-> | ->].
      + left. now rewrite app_nil_r.
      + right. exists (local ++ cp "@" :: domain ++ cp "." :: tld).
        split; [list_assoc | exact S0].
    - intros [H | (s' & -> & H)];
        destruct H as (local & domain & tld & -> & Hnl & Hl & Hnd & Hd
                       & Hnt & Ht).
      + exists local, domain, tld, []. rewrite app_nil_r.
        rewrite !length_pos_nonempty. repeat split; auto. discriminate.
      + exists local, domain, tld, [10].
        rewrite !length_pos_nonempty. repeat split; auto;
          [list_assoc | discriminate]. }
  unfold validate_email. destruct s as [|c s]; [|exact P].
  simpl. split; [discriminate|].
  intros [(local & domain & tld & H & Hnl & _) | (s' & H & _)].
  - destruct local; [congruence | discriminate].
  - destruct s'; discriminate.
Qed.

(** C2, as stated, fails: [validate_email] accepts an address followed
    by a line feed, which is not of the form [local-part@domain.tld]. *)
Lemma validate_email_trailing_newline :
  validate_email (lit "a@b.co" ++ [10]) = true /\
  ~ spec_email_matches (lit "a@b.co" ++ [10]).
Proof.
  split; [reflexivity|]. intros H. apply spec_email_chars in H.
  vm_compute in H. discriminate.
Qed.

(** C2 (amended): for every string that does not end with a line feed,
    [validate_email] passes if and only if the string has the form
    [local-part@domain.tld] with the three character classes of the
    pattern. *)
Theorem validate_email_iff_pattern s :
  last s 0 <> 10 ->
  (validate_email s = true <-> spec_email_matches s).
Proof.
  intros Hlast. rewrite validate_email_spec. split; [|now left].
  intros [H | (s' & -> & _)]; [exact H|].
  rewrite last_last in Hlast. congruence.
Qed.

Lemma validate_email_iff_pattern_witness :
  validate_email (lit "a@b.co") = true <-> spec_email_matches (lit "a@b.co").
Proof.
  apply validate_email_iff_pattern. vm_compute. discriminate.
Defined.

(** C10, as stated, fails on the test the code makes: [validate_email]
    accepts an address followed by a line feed, and [sanitize_input]
    removes that line feed. *)
Lemma sanitize_changes_validated_newline :
  validate_email (lit "a@b.co" ++ [10]) = true /\
  sanitize_input (lit "a@b.co" ++ [10]) = lit "a@b.co" /\
  sanitize_input (lit "a@b.co" ++ [10]) <> lit "a@b.co" ++ [10].
Proof. repeat split. vm_compute. discriminate. Qed.

(** C10 (amended): a string that [validate_email] accepts and that does
    not end with a line feed is returned unchanged by
    [sanitize_input]. *)
Theorem sanitize_validated_email_identity s :
  validate_email s = true -> last s 0 <> 10 -> sanitize_input s = s.
Proof.
  intros H Hlast. apply validate_email_spec in H.
  destruct H as [H | (s' & -> & _)];
    [|rewrite last_last in Hlast; congruence].
  apply spec_email_chars in H. rewrite forallb_forall in H.
  assert (P : forall c, In c s ->
                is_special c = false /\ is_control c = false /\
                isspace c = false).
  { intros c Hc. apply email_char_plain. now apply H. }
  apply sanitize_fixed.
  - intros Hin. apply P in Hin as (Hs & _). discriminate.
  - apply forallb_forall. intros c Hc. apply P in Hc as (-> & _). reflexivity.
  - apply forallb_forall. intros c Hc.
    apply P in Hc as (_ & -> & _). reflexivity.
  - apply strip_no_space, forallb_forall. intros c Hc.
    apply P in Hc as (_ & _ & ->). reflexivity.
Qed.

Lemma sanitize_validated_email_identity_witness :
  sanitize_input (lit "first.last+tag@mail-host.example.org")
  = lit "first.last+tag@mail-host.example.org".
Proof.
  apply sanitize_validated_email_identity;
    [reflexivity | vm_compute; discriminate].
Defined.

(** C5: the output of [sanitize_input] has no match of the tag pattern
    [<[^>]+>] anywhere, and none of its characters is in 0x00-0x1F or
    0x7F-0x9F. *)
Theorem sanitize_output_clean s :
  re_search tag_pattern (sanitize_input s) = false /\
  forallb (fun c => negb (is_control c)) (sanitize_input s) = true.
Proof.
  split; [apply re_search_tag_plain, sanitize_no_lt | apply sanitize_no_control].
Qed.

(** C4, as stated, fails: the second pass escapes the ampersand of
    [&amp;] again. *)
Lemma sanitize_twice_differs :
  sanitize_input (lit "&") = lit "&amp;" /\
  sanitize_input (sanitize_input (lit "&")) = lit "&amp;amp;" /\
  sanitize_input (sanitize_input (lit "&")) <> sanitize_input (lit "&").
Proof. repeat split. vm_compute. discriminate. Qed.

(** C4 (amended): a second pass of [sanitize_input] returns the result
    of the first exactly when that result contains no ampersand, that
    is, when the first pass escaped nothing. *)
Theorem sanitize_idempotent_iff s :
  sanitize_input (sanitize_input s) = sanitize_input s
  <-> ~ In (cp "&") (sanitize_input s).
Proof.
  split.
  - intros E Hin.
    pose proof (count_a_sanitize (sanitize_input s) (sanitize_no_lt s)) as C.
    rewrite E in C.
    apply (count_occ_In Z.eq_dec) in Hin. lia.
  - intros Hamp. apply sanitize_fixed.
    + apply sanitize_no_lt.
    + apply forallb_forall. intros c Hc. apply negb_true_iff.
      assert (c <> cp "&") by (intros ->; contradiction).
      apply sanitize_chars in Hc as (_ & ? & ? & ? & ?).
      unfold is_special. rewrite !orb_false_iff, !Z.eqb_neq. tauto.
    + apply sanitize_no_control.
    + apply sanitize_stripped.
Qed.

(* ------------------------------------------------------------------ *)
(** ** validate_phone *)

(** C3, as stated, fails: a tab inside the value is removed as well, so
    a value whose residue in the sense of the specification still holds
    a tab passes. *)
Lemma validate_phone_inner_tab :
  validate_phone (lit "12345" ++ [9] ++ lit "67890") = true /\
  forallb isdigit_char
    (filter (fun c => negb (spec_phone_removed c))
       (lit "12345" ++ [9] ++ lit "67890")) = false.
Proof. split; reflexivity. Qed.

(** C3 (amended): an empty phone value passes; a non-empty one passes
    exactly when, after the removal of every whitespace character and
    of [-], [(], [)], [+], what remains consists of digits (in the sense
    of [str.isdigit]) and has at least 10 characters. *)
Theorem validate_phone_rule phone :
  validate_phone phone = true <->
  phone = [] \/
  (forallb isdigit_char
     (filter (fun c => negb (phone_format_char c)) phone) = true /\
   (10 <= length (filter (fun c => negb (phone_format_char c)) phone))%nat).
Proof.
  unfold validate_phone. destruct phone as [|c phone].
  - simpl. tauto.
  - cbn [truthy negb]. unfold phone_pattern. rewrite re_sub_class.
    set (rest := filter _ (c :: phone)).
    rewrite andb_true_iff, Nat.leb_le. split.
    + intros [Hd Hl]. right. split; [|exact Hl].
      destruct rest; [discriminate | exact Hd].
    + intros [H | [Hd Hl]]; [discriminate|]. split; [|exact Hl].
      destruct rest; [simpl in Hl; lia | exact Hd].
Qed.

(* ------------------------------------------------------------------ *)
(** ** The /submit handler *)

Lemma str_eqb_eq a b : str_eqb a b = true <-> a = b.
Proof.
  revert b. induction a as [|x a IH]; intros [|y b]; simpl;
    try (split; congruence).
  rewrite andb_true_iff, Z.eqb_eq, IH. split.
  - intros [-> ->]. reflexivity.
  - intros E. injection E as -> ->. auto.
Qed.

Lemma collect_by_field name email phone message :
  collect_validation_errors name email phone message
  = name_errors name ++ email_errors email ++ message_errors message
    ++ phone_errors phone.
Proof.
  unfold collect_validation_errors, name_errors, email_errors,
    message_errors, phone_errors.
  destruct (negb (truthy name)), (length name <? 2)%nat,
    (100 <? length name)%nat, (negb (truthy email)),
    (negb (validate_email email)), (negb (truthy message)),
    (length message <? 10)%nat, (1000 <? length message)%nat,
    (truthy phone && negb (validate_phone phone)); reflexivity.
Qed.

(** Validation errors: the answer is 400 and nothing was called. *)
Lemma submit_rejected cfg env form :
  validation_errors_of form <> [] ->
  handle_submit cfg env form
  = (Ret (Response 400 false
            (lit "Validation errors: "
             ++ join (lit ", ") (validation_errors_of form))), []).
Proof.
  unfold handle_submit, submit_contact_form, validation_errors_of, try_except.
  cbv zeta. intros H.
  destruct (collect_validation_errors _ _ _ _); [congruence | reflexivity].
Qed.

(** No validation error: the four fields are sanitized, then the
    configuration is checked. *)
Lemma submit_unconfigured cfg env form :
  validation_errors_of form = [] -> unconfigured cfg = true ->
  handle_submit cfg env form
  = (Ret (Response 500 false msg_config), sanitize_calls form).
Proof.
  unfold handle_submit, submit_contact_form, validation_errors_of, try_except,
    unconfigured, sanitize_calls.
  cbv zeta. intros -> Hc.
  unfold bind, call_sanitize, emit, ret. cbn [app].
  destruct (truthy (field form "phone")); cbn [app]; now rewrite Hc.
Qed.

Lemma truthy_app_r (a b : pystr) : truthy b = true -> truthy (a ++ b) = true.
Proof. destruct a, b; simpl; congruence. Qed.

Lemma raise_for_status_error r t :
  error_status r = true ->
  exists detail, raise_for_status r t = (Raise (Exn HTTPError detail), t).
Proof.
  unfold error_status, raise_for_status. intros H.
  destruct ((400 <=? status_code r) && (status_code r <? 500)) eqn:E4.
  - rewrite truthy_app_r by reflexivity. eexists. reflexivity.
  - assert (E5 : (500 <=? status_code r) && (status_code r <? 600) = true).
    { rewrite andb_true_iff, andb_false_iff, Z.leb_le, Z.ltb_lt, ?Z.leb_gt,
        ?Z.ltb_ge in *. lia. }
    rewrite E5, truthy_app_r by reflexivity. eexists. reflexivity.
Qed.

Lemma raise_for_status_pass r t :
  error_status r = false -> raise_for_status r t = (Ret tt, t).
Proof.
  unfold error_status, raise_for_status. intros H.
  assert (E4 : (400 <=? status_code r) && (status_code r <? 500) = false).
  { rewrite andb_false_iff, ?Z.leb_gt, ?Z.ltb_ge in *. lia. }
  assert (E5 : (500 <=? status_code r) && (status_code r <? 600) = false).
  { rewrite andb_false_iff, ?Z.leb_gt, ?Z.ltb_ge in *. lia. }
  now rewrite E4, E5.
Qed.

Lemma submit_configured cfg env form :
  validation_errors_of form = [] -> unconfigured cfg = false ->
  handle_submit cfg env form
  = try_except (send env (sent_request cfg env form)) (fun _ => true)
      (fun e =>
         emit (Print (lit "Unexpected error: " ++ exn_str e)) ;;;
         ret (Response 500 false msg_unexpected))
      (sanitize_calls form).
Proof.
  unfold handle_submit, submit_contact_form, validation_errors_of,
    unconfigured, sanitize_calls, sent_request, send.
  cbv zeta. intros -> Hc.
  unfold try_except at 1 3. unfold bind at 1 2 3 4.
  unfold call_sanitize, emit, ret, bind. cbn [app].
  destruct (truthy (field form "phone")); cbn [app]; rewrite Hc; reflexivity.
Qed.

Lemma send_failure env req t :
  dispatch_fails (post env req) = true ->
  exists log,
    send env req t = (Ret (Response 500 false msg_failed), t ++ HttpPost req :: log).
Proof.
  unfold dispatch_fails, send, requests_post, try_except, bind, emit, lift,
    ret. cbv beta iota.
  destruct (post env req) as [r | e].
  - intros H. destruct (error_status r) eqn:Es.
    + destruct (raise_for_status_error r (t ++ [HttpPost req]) Es) as [d ->].
      cbn [exn_cls is_request_exception]. eexists.
      rewrite <- app_assoc. reflexivity.
    + rewrite (raise_for_status_pass r _ Es). simpl in H.
      unfold remote_rejection in H.
      destruct (resp_json r) as [[| | | | | |members]|]; try discriminate.
      unfold json_get.
      destruct (dict_lookup members (lit "ok")) as [v|].
      * apply negb_true_iff in H. rewrite H. exists [].
        reflexivity.
      * exists []. reflexivity.
  - intros H. rewrite H. eexists. rewrite <- app_assoc. reflexivity.
Qed.

(* ------------------------------------------------------------------ *)
(** ** Validation *)

Lemma name_errors_cases name :
  (name_errors name = [msg_name_required] /\ length name = 0%nat) \/
  (name_errors name = [msg_name_short] /\ length name = 1%nat) \/
  (name_errors name = [msg_name_long] /\ (100 < length name)%nat) \/
  (name_errors name = [] /\ (2 <= length name <= 100)%nat).
Proof.
  unfold name_errors. destruct name as [|c name]; [now left|].
  cbn [truthy negb].
  destruct (Nat.ltb_spec (length (c :: name)) 2) as [H2 | H2].
  { right; left. split; [reflexivity|]. simpl in *. lia. }
  destruct (Nat.ltb_spec 100 (length (c :: name))) as [H100 | H100].
  { right; right; left. now split. }
  right; right; right. split; [reflexivity | lia].
Qed.

(** The messages of the other fields are not name messages. *)
Ltac other_field H :=
  unfold email_errors, message_errors, phone_errors in H;
  repeat match type of H with
         | context [if ?b then _ else _] => destruct b
         end;
  cbn [In app] in H;
  repeat match type of H with
         | _ \/ _ => destruct H as [H | H]
         end;
  try contradiction; vm_compute in H; discriminate H.

Lemma name_message_origin m name email phone message :
  In m [msg_name_required; msg_name_short; msg_name_long] ->
  In m (collect_validation_errors name email phone message)
  <-> In m (name_errors name).
Proof.
  intros Hm. rewrite collect_by_field, in_app_iff.
  split; [|now left]. intros [H | H]; [exact H|]. exfalso.
  cbn [In] in Hm. destruct Hm as [<- | [<- | [<- | []]]]; other_field H.
Qed.

(** C1: when the error list is not empty the answer is 400 with the
    message ['Validation errors: '] followed by the errors joined with
    [', '], and the request made no call: no [sanitize_input], no
    [requests.post]. *)
Theorem validation_failure_response cfg env form :
  validation_errors_of form <> [] ->
  handle_submit cfg env form
  = (Ret (Response 400 false
            (lit "Validation errors: "
             ++ join (lit ", ") (validation_errors_of form))), []).
Proof. apply submit_rejected. Qed.

Lemma validation_failure_response_witness :
  handle_submit source_config (fixed_remote timed_out) []
  = (Ret (Response 400 false
            (lit "Validation errors: "
             ++ join (lit ", ") (validation_errors_of []))), []).
Proof.
  apply validation_failure_response. vm_compute. discriminate.
Defined.

(** C9: the error list is the errors of the name, then of the email,
    then of the message, then of the phone, each computed from its own
    field alone and each of at most one message. *)
Theorem validation_collects_all name email phone message :
  collect_validation_errors name email phone message
  = name_errors name ++ email_errors email ++ message_errors message
    ++ phone_errors phone
  /\ (length (name_errors name) <= 1)%nat
  /\ (length (email_errors email) <= 1)%nat
  /\ (length (message_errors message) <= 1)%nat
  /\ (length (phone_errors phone) <= 1)%nat.
Proof.
  split; [apply collect_by_field|].
  unfold name_errors, email_errors, message_errors, phone_errors.
  repeat split;
    repeat match goal with
           | |- context [if ?b then _ else _] => destruct b
           end; simpl; lia.
Qed.

(** C6, as stated, fails: an empty name has length 0, below 2, and is
    answered with "Name is required", not with a length error. *)
Lemma empty_name_is_required :
  (length (field form_unnamed "name") < 2)%nat /\
  validation_errors_of form_unnamed = [msg_name_required] /\
  ~ In msg_name_short (validation_errors_of form_unnamed) /\
  ~ In msg_name_long (validation_errors_of form_unnamed).
Proof.
  split; [vm_compute; lia|]. split; [reflexivity|].
  split; intros H; vm_compute in H; intuition discriminate.
Qed.

(** C6 (amended): with the length of the trimmed name, the error list
    holds "Name is required" exactly for length 0, the at-least-2 error
    exactly for length 1 and the less-than-100 error exactly for a length
    above 100; so lengths 2 to 100 give no name error, and every other
    length rejects the submission. *)
Theorem name_length_rule form :
  let name := field form "name" in
  let errs := validation_errors_of form in
  (In msg_name_required errs <-> length name = 0%nat) /\
  (In msg_name_short errs <-> length name = 1%nat) /\
  (In msg_name_long errs <-> (100 < length name)%nat) /\
  ((length name < 2 \/ 100 < length name)%nat -> errs <> []).
Proof.
  intros name errs. subst errs. unfold validation_errors_of. fold name.
  set (email := field form "email"). set (phone := field form "phone").
  set (message := field form "message").
  assert (D1 : msg_name_required <> msg_name_short) by (vm_compute; discriminate).
  assert (D2 : msg_name_required <> msg_name_long) by (vm_compute; discriminate).
  assert (D3 : msg_name_short <> msg_name_long) by (vm_compute; discriminate).
  assert (P : (In msg_name_required
                 (collect_validation_errors name email phone message)
               <-> length name = 0%nat) /\
              (In msg_name_short
                 (collect_validation_errors name email phone message)
               <-> length name = 1%nat) /\
              (In msg_name_long
                 (collect_validation_errors name email phone message)
               <-> (100 < length name)%nat)).
  { rewrite !name_message_origin by (cbn [In]; tauto).
    destruct (name_errors_cases name) as [[E L] | [[E L] | [[E L] | [E L]]]];
      rewrite E; cbn [In]; repeat split;
      try (intros [H | []]; congruence); try (intros; lia); try tauto. }
  destruct P as (P1 & P2 & P3). repeat split; try apply P1; try apply P2;
    try apply P3.
  intros H Hnil. rewrite Hnil in P1, P2, P3. cbn [In] in P1, P2, P3.
  destruct H as [H | H]; [|tauto].
  destruct (length name) as [|[|n]]; [tauto | tauto | lia].
Qed.

(* ------------------------------------------------------------------ *)
(** ** Configuration and dispatch *)

Lemma sanitize_calls_no_post form :
  existsb is_http_post (sanitize_calls form) = false.
Proof.
  unfold sanitize_calls. destruct (truthy (field form "phone")); reflexivity.
Qed.

(** C7: for a submission without validation error, when the token or
    the chat id is still its placeholder the answer is 500 with the
    server-configuration message and no [requests.post] was made. *)
Theorem placeholder_config_error cfg env form :
  validation_errors_of form = [] ->
  TELEGRAM_BOT_TOKEN cfg = token_placeholder
  \/ TELEGRAM_CHAT_ID cfg = chat_id_placeholder ->
  fst (handle_submit cfg env form) = Ret (Response 500 false msg_config) /\
  existsb is_http_post (snd (handle_submit cfg env form)) = false.
Proof.
  intros Hv Hc. rewrite submit_unconfigured; [|exact Hv|].
  - split; [reflexivity | apply sanitize_calls_no_post].
  - unfold unconfigured. apply orb_true_iff.
    destruct Hc as [Hc | Hc]; [left | right]; now apply str_eqb_eq.
Qed.

Lemma placeholder_config_error_witness :
  fst (handle_submit source_config (fixed_remote timed_out) form_ok)
  = Ret (Response 500 false msg_config) /\
  existsb is_http_post
    (snd (handle_submit source_config (fixed_remote timed_out) form_ok))
  = false.
Proof.
  apply placeholder_config_error; [reflexivity | left; reflexivity].
Defined.

(** C8, as stated, fails: a status outside 200-299 that is not 4xx or
    5xx does not raise; with a body that says [ok] the answer is 200. *)
Lemma not_modified_is_delivered :
  spec_dispatch_fails (Ret not_modified_ok) = true /\
  fst (handle_submit deployed_config (fixed_remote (Ret not_modified_ok))
         form_ok)
  = Ret (Response 200 true msg_thanks).
Proof. split; reflexivity. Qed.

(** C8 (amended): for a valid submission and a deployed configuration,
    when [requests.post] raises a [RequestException] (timeout,
    connection failure), or the status is 4xx or 5xx, or the status is
    any other and the body is a JSON object whose [ok] is missing or
    false, the answer is 500 with the one generic retry-later message;
    it is the same value whatever the text of the error. *)
Theorem dispatch_failure_generic cfg env form :
  validation_errors_of form = [] ->
  unconfigured cfg = false ->
  dispatch_fails (post env (sent_request cfg env form)) = true ->
  fst (handle_submit cfg env form) = Ret (Response 500 false msg_failed).
Proof.
  intros Hv Hc Hf. rewrite (submit_configured cfg env form Hv Hc).
  destruct (send_failure env _ (sanitize_calls form) Hf) as [log E].
  unfold try_except. now rewrite E.
Qed.

Lemma dispatch_failure_generic_witness :
  fst (handle_submit deployed_config (fixed_remote timed_out) form_ok)
  = Ret (Response 500 false msg_failed).
Proof. apply dispatch_failure_generic; reflexivity. Defined.

(* ------------------------------------------------------------------ *)
(** ** The handler as a whole *)

Lemma strip_last_not_space s :
  strip s = [] \/ isspace (last (strip s) 0) = false.
Proof.
  unfold strip, rstrip.
  destruct (lstrip_head (rev (lstrip s))) as [E | (c & s' & E & Hc)];
    rewrite E; [now left|]. right. simpl rev. now rewrite last_last.
Qed.

(** X1: The email check of the handler works on a stripped value, which
    cannot end with a line feed: there the pattern decides exactly. *)
Lemma submit_email_rule form :
  In msg_email_invalid (validation_errors_of form) <->
  field form "email" <> [] /\ ~ spec_email_matches (field form "email").
Proof.
  unfold validation_errors_of. rewrite collect_by_field, !in_app_iff.
  assert (N : ~ In msg_email_invalid (name_errors (field form "name"))).
  { intros H. unfold name_errors in H.
    repeat match type of H with
           | context [if ?b then _ else _] => destruct b
           end; cbn [In] in H; try contradiction;
      destruct H as [H | []]; vm_compute in H; discriminate H. }
  assert (O : ~ (In msg_email_invalid (message_errors (field form "message"))
                 \/ In msg_email_invalid (phone_errors (field form "phone")))).
  { intros [H | H]; other_field H. }
  assert (E : validate_email (field form "email") = true
              <-> spec_email_matches (field form "email")).
  { rewrite validate_email_spec. split; [|now left].
    intros [H | (s' & Hs & _)]; [exact H|]. exfalso.
    unfold field in Hs.
    destruct (strip_last_not_space (form_get form (lit "email") []))
      as [H0 | H0]; rewrite Hs in H0.
    - destruct s'; discriminate.
    - rewrite last_last in H0. discriminate. }
  unfold email_errors. destruct (field form "email") as [|c email] eqn:Ef.
  - cbn [truthy negb In]. split.
    + intros [H | [[H | []] | H]]; try tauto.
      vm_compute in H. discriminate.
    + intros [H _]. congruence.
  - cbn [truthy negb]. destruct (validate_email (c :: email)) eqn:V;
      cbn [negb In].
    + split; [tauto|]. intros [_ H]. exfalso. apply H, E. reflexivity.
    + split; [|tauto]. intros _. split; [discriminate|].
      intros H. apply E in H. discriminate.
Qed.

(** Nothing is raised past the handler: every request gets a response. *)
Lemma submit_always_responds cfg env form :
  exists r t, handle_submit cfg env form = (Ret r, t).
Proof.
  unfold handle_submit, submit_contact_form.
  match goal with
  | |- context [try_except ?b _ _] => generalize b
  end.
  intros body. unfold try_except at 1.
  destruct (body []) as [[r | e] t]; [now exists r, t|].
  unfold bind, emit, ret. eexists. eexists. reflexivity.
Qed.

(* ------------------------------------------------------------------ *)
(** ** The validation rules, field by field *)

Ltac foreign_message H :=
  unfold name_errors, email_errors, message_errors, phone_errors in H;
  repeat match type of H with
         | context [if ?b then _ else _] => destruct b
         end;
  cbn [In app] in H;
  repeat match type of H with
         | _ \/ _ => destruct H as [H | H]
         end;
  try contradiction; vm_compute in H; discriminate H.

Lemma lstrip_nil_iff s : lstrip s = [] <-> forallb isspace s = true.
Proof.
  induction s as [|c s IH]; simpl; [tauto|].
  destruct (isspace c); simpl; [exact IH | split; discriminate].
Qed.

Lemma strip_nil_iff s : strip s = [] <-> forallb isspace s = true.
Proof.
  rewrite <- lstrip_nil_iff. unfold strip, rstrip. split.
  - intros H. apply (f_equal (@rev Z)) in H. rewrite rev_involutive in H.
    simpl in H. apply lstrip_nil_iff in H.
    destruct (lstrip_head s) as [E | (c & s' & E & Hc)]; [exact E|].
    rewrite E in H. rewrite forallb_forall in H.
    rewrite (H c) in Hc; [discriminate|]. apply -> in_rev. now left.
  - intros ->. reflexivity.
Qed.

Lemma field_email_exact form :
  validate_email (field form "email") = true
  <-> spec_email_matches (field form "email").
Proof.
  rewrite validate_email_spec. split; [|now left].
  intros [H | (s' & Hs & _)]; [exact H|]. exfalso.
  unfold field in Hs.
  destruct (strip_last_not_space (form_get form (lit "email") []))
    as [H0 | H0]; rewrite Hs in H0.
  - destruct s'; discriminate.
  - rewrite last_last in H0. discriminate.
Qed.

Lemma message_errors_cases message :
  (message_errors message = [msg_message_required]
   /\ length message = 0%nat) \/
  (message_errors message = [msg_message_short]
   /\ (1 <= length message < 10)%nat) \/
  (message_errors message = [msg_message_long]
   /\ (1000 < length message)%nat) \/
  (message_errors message = [] /\ (10 <= length message <= 1000)%nat).
Proof.
  unfold message_errors. destruct message as [|c message]; [now left|].
  cbn [truthy negb].
  destruct (Nat.ltb_spec (length (c :: message)) 10) as [H10 | H10].
  { right; left. split; [reflexivity|]. simpl in *. lia. }
  destruct (Nat.ltb_spec 1000 (length (c :: message))) as [H1000 | H1000].
  { right; right; left. now split. }
  right; right; right. split; [reflexivity | lia].
Qed.

Lemma message_message_origin m name email phone message :
  In m [msg_message_required; msg_message_short; msg_message_long] ->
  In m (collect_validation_errors name email phone message)
  <-> In m (message_errors message).
Proof.
  intros Hm. rewrite collect_by_field, !in_app_iff.
  split; [|tauto]. intros [H | [H | [H | H]]]; [| |exact H|]; exfalso;
    cbn [In] in Hm; destruct Hm as [<- | [<- | [<- | []]]]; foreign_message H.
Qed.

(** X2: The message rule (lines 126-131), with the length of the trimmed
    message: "Message is required" exactly for length 0, the at-least-10
    error exactly for lengths 1 to 9, the less-than-1000 error exactly
    above 1000. *)
Theorem message_length_rule form :
  let message := field form "message" in
  let errs := validation_errors_of form in
  (In msg_message_required errs <-> length message = 0%nat) /\
  (In msg_message_short errs <-> (1 <= length message < 10)%nat) /\
  (In msg_message_long errs <-> (1000 < length message)%nat).
Proof.
  intros message errs. subst errs. unfold validation_errors_of. fold message.
  assert (D1 : msg_message_required <> msg_message_short)
    by (vm_compute; discriminate).
  assert (D2 : msg_message_required <> msg_message_long)
    by (vm_compute; discriminate).
  assert (D3 : msg_message_short <> msg_message_long)
    by (vm_compute; discriminate).
  rewrite !message_message_origin by (cbn [In]; tauto).
  destruct (message_errors_cases message)
    as [[E L] | [[E L] | [[E L] | [E L]]]];
    rewrite E; cbn [In]; refine (conj _ (conj _ _));
    (split;
     [ intros H; try contradiction; try (destruct H as [H | []]);
       first [lia | congruence]
     | intros H; first [lia | left; reflexivity] ]).
Qed.

(** X3: A required field that is absent, empty or made of whitespace only
    is reported as required, and only then (lines 106-109, 114, 121,
    126). *)
Theorem blank_field_is_required form :
  let errs := validation_errors_of form in
  (In msg_name_required errs
   <-> forallb isspace (form_get form (lit "name") []) = true) /\
  (In msg_email_required errs
   <-> forallb isspace (form_get form (lit "email") []) = true) /\
  (In msg_message_required errs
   <-> forallb isspace (form_get form (lit "message") []) = true).
Proof.
  intros errs. subst errs. unfold validation_errors_of.
  rewrite <- !strip_nil_iff. fold (field form "name") (field form "email")
    (field form "message").
  rewrite (name_message_origin msg_name_required),
    (message_message_origin msg_message_required) by (cbn [In]; tauto).
  rewrite collect_by_field, !in_app_iff.
  set (name := field form "name"). set (email := field form "email").
  set (phone := field form "phone"). set (message := field form "message").
  repeat split.
  - unfold name_errors. destruct name; cbn [truthy negb In]; [tauto|].
    repeat match goal with
           | |- context [if ?b then _ else _] => destruct b
           end; cbn [In]; intros H; try contradiction;
      destruct H as [H | []]; vm_compute in H; discriminate.
  - intros ->. now left.
  - intros [H | [H | [H | H]]]; try (exfalso; foreign_message H).
    unfold email_errors in H. destruct email; [reflexivity|].
    cbn [truthy negb] in H. destruct (negb _); cbn [In] in H;
      try contradiction. destruct H as [H | []]. vm_compute in H.
    discriminate.
  - intros ->. right; left. now left.
  - unfold message_errors. destruct message; cbn [truthy negb In]; [tauto|].
    repeat match goal with
           | |- context [if ?b then _ else _] => destruct b
           end; cbn [In]; intros H; try contradiction;
      destruct H as [H | []]; vm_compute in H; discriminate.
  - intros ->. now left.
Qed.

Lemma filter_lstrip (P : Z -> bool) s :
  (forall c, isspace c = true -> P c = false) ->
  filter P (lstrip s) = filter P s.
Proof.
  intros HP. induction s as [|c s IH]; [reflexivity|]. simpl.
  destruct (isspace c) eqn:E; [|reflexivity]. now rewrite (HP c E).
Qed.

Lemma filter_rev_comm (P : Z -> bool) s : filter P (rev s) = rev (filter P s).
Proof.
  induction s as [|c s IH]; [reflexivity|]. simpl.
  rewrite filter_app, IH. simpl. destruct (P c); simpl;
    [reflexivity | apply app_nil_r].
Qed.

Lemma filter_strip (P : Z -> bool) s :
  (forall c, isspace c = true -> P c = false) ->
  filter P (strip s) = filter P s.
Proof.
  intros HP. unfold strip, rstrip.
  now rewrite filter_rev_comm, filter_lstrip, filter_rev_comm,
    rev_involutive, filter_lstrip.
Qed.

Lemma validate_phone_nonempty phone :
  phone <> [] ->
  validate_phone phone
  = forallb isdigit_char (filter (fun c => negb (phone_format_char c)) phone)
    && (10 <=? length (filter (fun c => negb (phone_format_char c)) phone))%nat.
Proof.
  intros H. unfold validate_phone. destruct phone as [|c phone]; [congruence|].
  cbn [truthy negb]. unfold phone_pattern. rewrite re_sub_class.
  destruct (filter _ (c :: phone)); reflexivity.
Qed.

(** X4: The phone rule of the handler (lines 108, 133-135) on the value as
    received: trimming changes nothing of what remains after the
    formatting characters are removed, so the phone error is reported
    exactly when the value is not blank and its digits fail the test. *)
Theorem submit_phone_rule form :
  let raw := form_get form (lit "phone") [] in
  let rest := filter (fun c => negb (phone_format_char c)) raw in
  In msg_phone_invalid (validation_errors_of form) <->
  forallb isspace raw = false /\
  forallb isdigit_char rest && (10 <=? length rest)%nat = false.
Proof.
  intros raw rest. unfold validation_errors_of.
  rewrite collect_by_field, !in_app_iff.
  assert (S1 : field form "phone" = [] <-> forallb isspace raw = true)
    by apply strip_nil_iff.
  assert (R : filter (fun c => negb (phone_format_char c))
                (field form "phone") = rest).
  { apply filter_strip. intros c Hc. unfold phone_format_char.
    now rewrite Hc. }
  split.
  - intros [H | [H | [H | H]]]; try (exfalso; foreign_message H).
    unfold phone_errors in H.
    destruct (field form "phone") as [|c phone] eqn:Ef;
      [contradiction H|].
    rewrite validate_phone_nonempty, R in H by discriminate.
    cbn [truthy andb] in H. split.
    + destruct (forallb isspace raw); [|reflexivity].
      destruct S1 as [_ S1]. now specialize (S1 eq_refl).
    + destruct (forallb isdigit_char rest && (10 <=? length rest)%nat);
        [destruct H | reflexivity].
  - intros [Hs Hd]. right; right; right. unfold phone_errors.
    destruct (field form "phone") as [|c phone] eqn:Ef.
    + destruct S1 as [S1 _]. rewrite S1 in Hs by reflexivity. discriminate.
    + rewrite validate_phone_nonempty, R, Hd by discriminate. now left.
Qed.

Lemma app_nil_4 {A} (a b c d : list A) :
  a ++ b ++ c ++ d = [] <-> a = [] /\ b = [] /\ c = [] /\ d = [].
Proof.
  split.
  - intros H. apply app_eq_nil in H as [-> H].
    apply app_eq_nil in H as [-> H]. apply app_eq_nil in H as [-> ->]. auto.
  - intros (-> & -> & -> & ->). reflexivity.
Qed.

(** X5: A submission passes validation (lines 112-138) exactly when the
    trimmed name has 2 to 100 characters, the trimmed email has the form
    [local-part@domain.tld], the trimmed message has 10 to 1000
    characters and the trimmed phone is empty or valid. *)
Theorem validation_passes_iff form :
  validation_errors_of form = [] <->
  (2 <= length (field form "name") <= 100)%nat /\
  spec_email_matches (field form "email") /\
  (10 <= length (field form "message") <= 1000)%nat /\
  validate_phone (field form "phone") = true.
Proof.
  unfold validation_errors_of. rewrite collect_by_field, app_nil_4.
  rewrite <- field_email_exact.
  assert (N : name_errors (field form "name") = []
              <-> (2 <= length (field form "name") <= 100)%nat).
  { destruct (name_errors_cases (field form "name"))
      as [[E L] | [[E L] | [[E L] | [E L]]]]; rewrite E;
      split; try discriminate; try lia; auto. }
  assert (M : message_errors (field form "message") = []
              <-> (10 <= length (field form "message") <= 1000)%nat).
  { destruct (message_errors_cases (field form "message"))
      as [[E L] | [[E L] | [[E L] | [E L]]]]; rewrite E;
      split; try discriminate; try lia; auto. }
  assert (E : email_errors (field form "email") = []
              <-> validate_email (field form "email") = true).
  { unfold email_errors, validate_email.
    destruct (field form "email"); cbn [truthy negb];
      [split; discriminate|].
    destruct (re_match _ _ _); cbn [negb]; split; auto; discriminate. }
  assert (P : phone_errors (field form "phone") = []
              <-> validate_phone (field form "phone") = true).
  { unfold phone_errors.
    destruct (field form "phone"); cbn [truthy andb]; [tauto|].
    destruct (validate_phone _); cbn [negb]; split; auto; discriminate. }
  rewrite N, M, E, P. tauto.
Qed.

(* ------------------------------------------------------------------ *)
(** ** Every answer of the handler *)

Lemma outcome_classes o :
  (delivered o = true /\ dispatch_fails o || undecodable o = false
   /\ unexpected_failure o = false) \/
  (delivered o = false /\ dispatch_fails o || undecodable o = true
   /\ unexpected_failure o = false) \/
  (delivered o = false /\ dispatch_fails o || undecodable o = false
   /\ unexpected_failure o = true).
Proof.
  destruct o as [r | e]; simpl.
  - unfold remote_rejection. destruct (error_status r); simpl; [tauto|].
    destruct (resp_json r) as [[| | | | | |members]|e]; simpl; try tauto.
    + destruct (dict_lookup members (lit "ok")) as [v|]; simpl; [|tauto].
      destruct (json_truthy v); simpl; tauto.
    + destruct (is_request_exception (exn_cls e)); simpl; tauto.
  - destruct (is_request_exception (exn_cls e)); simpl; tauto.
Qed.

(** The inner [try] block, case by case. *)
Lemma send_cases env req t :
  (delivered (post env req) = true /\
   send env req t = (Ret (Response 200 true msg_thanks), t ++ [HttpPost req]))
  \/ (dispatch_fails (post env req) || undecodable (post env req) = true /\
      exists log,
        existsb is_http_post log = false /\ existsb is_sanitize log = false /\
        send env req t
        = (Ret (Response 500 false msg_failed), t ++ HttpPost req :: log))
  \/ (unexpected_failure (post env req) = true /\
      exists e,
        send env req t = (Raise e, t ++ [HttpPost req])).
Proof.
  unfold send, requests_post, try_except, bind, emit, lift, ret.
  cbv beta iota.
  destruct (post env req) as [r | e]; simpl delivered; simpl undecodable;
    simpl unexpected_failure; simpl dispatch_fails.
  - destruct (error_status r) eqn:Es.
    + destruct (raise_for_status_error r (t ++ [HttpPost req]) Es) as [d ->].
      cbn [exn_cls is_request_exception]. right; left. split; [reflexivity|].
      eexists. rewrite <- app_assoc. cbn [app].
      split; [|split; [|reflexivity]]; reflexivity.
    + rewrite (raise_for_status_pass r _ Es). unfold remote_rejection.
      cbn [negb andb orb].
      destruct (resp_json r) as [[| | | | | |members]|e];
        try (right; right; split; [reflexivity|]; eexists; reflexivity).
      * unfold json_get.
        destruct (dict_lookup members (lit "ok")) as [v|].
        -- destruct (json_truthy v); [left; now split|].
           right; left. split; [reflexivity|]. exists [].
           repeat split; reflexivity.
        -- right; left. split; [reflexivity|]. exists [].
           repeat split; reflexivity.
      * destruct (is_request_exception (exn_cls e)) eqn:Ee.
        -- right; left. split; [reflexivity|]. eexists.
           rewrite <- app_assoc. cbn [app].
           split; [|split; [|reflexivity]]; reflexivity.
        -- right; right. split; [reflexivity|]. eexists. reflexivity.
  - destruct (is_request_exception (exn_cls e)) eqn:Ee.
    + right; left. split; [reflexivity|]. eexists.
      rewrite <- app_assoc. cbn [app].
      split; [|split; [|reflexivity]]; reflexivity.
    + right; right. split; [reflexivity|]. eexists. reflexivity.
Qed.

Lemma sanitize_calls_no_other form :
  forallb is_sanitize (sanitize_calls form) = true.
Proof.
  unfold sanitize_calls. destruct (truthy (field form "phone")); reflexivity.
Qed.

(** The five ways a request ends. *)
Lemma handle_cases cfg env form :
  let req := sent_request cfg env form in
  let calls := sanitize_calls form in
  (validation_errors_of form <> [] /\
   handle_submit cfg env form
   = (Ret (Response 400 false
             (lit "Validation errors: "
              ++ join (lit ", ") (validation_errors_of form))), []))
  \/ (validation_errors_of form = [] /\ unconfigured cfg = true /\
      handle_submit cfg env form = (Ret (Response 500 false msg_config), calls))
  \/ (validation_errors_of form = [] /\ unconfigured cfg = false /\
      delivered (post env req) = true /\
      handle_submit cfg env form
      = (Ret (Response 200 true msg_thanks), calls ++ [HttpPost req]))
  \/ (validation_errors_of form = [] /\ unconfigured cfg = false /\
      dispatch_fails (post env req) || undecodable (post env req) = true /\
      exists log,
        existsb is_http_post log = false /\ existsb is_sanitize log = false /\
        handle_submit cfg env form
        = (Ret (Response 500 false msg_failed), calls ++ HttpPost req :: log))
  \/ (validation_errors_of form = [] /\ unconfigured cfg = false /\
      unexpected_failure (post env req) = true /\
      exists e,
        handle_submit cfg env form
        = (Ret (Response 500 false msg_unexpected),
           calls ++ [HttpPost req;
                     Print (lit "Unexpected error: " ++ exn_str e)])).
Proof.
  intros req calls.
  destruct (validation_errors_of form) as [|m errs] eqn:Hv.
  2:{ left. split; [discriminate|]. rewrite <- Hv. apply submit_rejected.
      rewrite Hv. discriminate. }
  right. destruct (unconfigured cfg) eqn:Hc.
  { left. repeat split. now apply submit_unconfigured. }
  right. rewrite (submit_configured cfg env form Hv Hc). fold req calls.
  unfold try_except.
  destruct (send_cases env req calls)
    as [[Hd ->] | [[Hf (log & L1 & L2 & ->)] | [Hu (e & ->)]]].
  - left. auto.
  - right; left. repeat split; auto. exists log. auto.
  - right; right. repeat split; auto. exists e.
    unfold bind, emit, ret. rewrite <- app_assoc. reflexivity.
Qed.

Lemma msg_failed_not_unexpected : msg_failed <> msg_unexpected.
Proof. vm_compute. discriminate. Qed.

Lemma msg_config_not_failed : msg_config <> msg_failed.
Proof. vm_compute. discriminate. Qed.

(** X6: Nothing is raised past the handler (lines 104, 196-202): every
    request is answered with status 200, 400 or 500, and the [success]
    flag is true exactly for 200. *)
Theorem response_well_formed cfg env form :
  exists r t,
    handle_submit cfg env form = (Ret r, t) /\
    In (status r) [200; 400; 500] /\
    (success r = true <-> status r = 200).
Proof.
  destruct (handle_cases cfg env form)
    as [[_ E] | [(_ & _ & E) | [(_ & _ & _ & E)
       | [(_ & _ & _ & log & _ & _ & E) | (_ & _ & _ & e & E)]]]];
    rewrite E; eexists; eexists; (split; [reflexivity|]);
    cbn [status success In]; (split; [tauto|]); split; intros H;
    discriminate || reflexivity.
Qed.

(** X7: The thank-you answer (lines 177-181) is given exactly when the
    submission passed validation, both settings were replaced, and the
    remote answered, with a status that is not 4xx or 5xx, a JSON object
    whose [ok] is true. *)
Theorem delivered_iff cfg env form :
  fst (handle_submit cfg env form) = Ret (Response 200 true msg_thanks) <->
  validation_errors_of form = [] /\ unconfigured cfg = false /\
  delivered (post env (sent_request cfg env form)) = true.
Proof.
  destruct (outcome_classes (post env (sent_request cfg env form)))
    as [(D & F & U) | [(D & F & U) | (D & F & U)]];
  destruct (handle_cases cfg env form)
    as [[Hv E] | [(Hv & Hc & E) | [(Hv & Hc & Hd & E)
       | [(Hv & Hc & Hf & log & _ & _ & E) | (Hv & Hc & Hu & e & E)]]]];
    rewrite E; cbn [fst]; split;
    try (intros H; discriminate H);
    try (intros (H1 & H2 & H3); congruence);
    try (intros _; auto); try reflexivity.
Qed.

(** X8: The generic retry-later answer is given exactly when a valid
    submission under a deployed configuration met a
    [RequestException], a 4xx or 5xx status, a JSON object whose [ok] is
    missing or false, or a [RequestException] of [.json()]
    (lines 174-194). *)
Theorem generic_failure_iff cfg env form :
  fst (handle_submit cfg env form) = Ret (Response 500 false msg_failed) <->
  validation_errors_of form = [] /\ unconfigured cfg = false /\
  dispatch_fails (post env (sent_request cfg env form))
  || undecodable (post env (sent_request cfg env form)) = true.
Proof.
  pose proof msg_failed_not_unexpected as N1.
  pose proof msg_config_not_failed as N2.
  destruct (outcome_classes (post env (sent_request cfg env form)))
    as [(D & F & U) | [(D & F & U) | (D & F & U)]];
  destruct (handle_cases cfg env form)
    as [[Hv E] | [(Hv & Hc & E) | [(Hv & Hc & Hd & E)
       | [(Hv & Hc & Hf & log & _ & _ & E) | (Hv & Hc & Hu & e & E)]]]];
    rewrite E; cbn [fst]; split;
    try (intros H; discriminate H);
    try (intros H; injection H as H; congruence);
    try (intros (H1 & H2 & H3); congruence);
    try (intros _; auto); try reflexivity.
Qed.



(** X10: No retry and no stray call (lines 167-172): a request makes exactly
    one [requests.post], of the message built from the sanitized
    fields, when it passed validation under a deployed configuration,
    and none otherwise. *)
Theorem posts_exactly_once cfg env form :
  filter is_http_post (snd (handle_submit cfg env form))
  = if passes form && negb (unconfigured cfg)
    then [HttpPost (sent_request cfg env form)]
    else [].
Proof.
  assert (S0 : filter is_http_post (sanitize_calls form) = []).
  { unfold sanitize_calls. destruct (truthy (field form "phone"));
      reflexivity. }
  assert (L0 : forall log, existsb is_http_post log = false ->
                           filter is_http_post log = []).
  { induction log as [|ev log IH]; [reflexivity|]. simpl.
    destruct (is_http_post ev); [discriminate|]. exact IH. }
  unfold passes.
  destruct (handle_cases cfg env form)
    as [[Hv E] | [(Hv & Hc & E) | [(Hv & Hc & Hd & E)
       | [(Hv & Hc & Hf & log & L1 & _ & E) | (Hv & Hc & Hu & e & E)]]]];
    rewrite E; cbn [snd].
  - destruct (validation_errors_of form); [congruence | reflexivity].
  - rewrite Hv, Hc. exact S0.
  - rewrite Hv, Hc, filter_app, S0. reflexivity.
  - rewrite Hv, Hc, filter_app, S0. cbn [filter is_http_post app].
    now rewrite (L0 log L1).
  - rewrite Hv, Hc, filter_app, S0. reflexivity.
Qed.

(** X11: Sanitization (lines 145-148): a request that passed validation
    calls [sanitize_input] on the name, the email, the phone when it is
    not empty, and the message, in this order, before anything else and
    never again; a rejected request never calls it. *)
Theorem sanitize_calls_made cfg env form :
  exists log,
    snd (handle_submit cfg env form)
    = (if passes form then sanitize_calls form else []) ++ log /\
    existsb is_sanitize log = false.
Proof.
  unfold passes.
  destruct (handle_cases cfg env form)
    as [[Hv E] | [(Hv & Hc & E) | [(Hv & Hc & Hd & E)
       | [(Hv & Hc & Hf & log & _ & L2 & E) | (Hv & Hc & Hu & e & E)]]]];
    rewrite E; cbn [snd].
  - exists []. destruct (validation_errors_of form); [congruence|]. auto.
  - exists []. rewrite Hv, app_nil_r. auto.
  - rewrite Hv. eexists. split; reflexivity.
  - rewrite Hv. eexists. split; [reflexivity|]. exact L2.
  - rewrite Hv. eexists. split; reflexivity.
Qed.

(* ------------------------------------------------------------------ *)
(** ** What tag removal removes *)

Lemma sub_from_skip p s : forall n, sub_from p n s = sub_from p O (skipn n s).
Proof.
  induction s as [|c s IH]; intros [|n]; try reflexivity.
  cbn [sub_from skipn]. apply IH.
Qed.

Lemma match_many_to_gt k post r body :
  forall min,
    forallb not_gt body = true -> (min <= length body)%nat ->
    k (cp ">" :: post) = Some r ->
    match_many not_gt k min (body ++ cp ">" :: post) = Some r.
Proof.
  induction body as [|c body IH]; intros min Hb Hl Hk.
  - simpl in Hl. assert (min = O) by lia. subst min.
    cbn [app match_many]. change (not_gt (cp ">")) with false. exact Hk.
  - simpl in Hb. apply andb_true_iff in Hb as [Hc Hb].
    cbn [app match_many]. rewrite Hc.
    rewrite (IH (Nat.pred min) Hb); [reflexivity | simpl in Hl; lia | exact Hk].
Qed.

Lemma tag_match body post :
  body <> [] -> forallb not_gt body = true ->
  match_here tag_pattern anywhere (cp "<" :: body ++ cp ">" :: post)
  = Some post.
Proof.
  intros Hne Hb. unfold tag_pattern, Lit. cbn [match_here].
  rewrite Z.eqb_refl. apply match_many_to_gt; [exact Hb | | ].
  - destruct body; [congruence | simpl; lia].
  - now rewrite Z.eqb_refl.
Qed.

Lemma re_sub_tag_at body post :
  body <> [] -> forallb not_gt body = true ->
  re_sub tag_pattern (cp "<" :: body ++ cp ">" :: post)
  = re_sub tag_pattern post.
Proof.
  intros Hne Hb. unfold re_sub. cbn [sub_from]. unfold match_len.
  rewrite (tag_match body post Hne Hb).
  replace (length (cp "<" :: body ++ cp ">" :: post) - length post)%nat
    with (S (length (body ++ [cp ">"])))
    by (cbn [length]; rewrite !length_app; cbn [length]; lia).
  rewrite sub_from_skip.
  replace (body ++ cp ">" :: post) with ((body ++ [cp ">"]) ++ post)
    by (now rewrite <- app_assoc).
  now rewrite skipn_app, skipn_all, Nat.sub_diag.
Qed.

Lemma re_sub_tag_prefix pre s :
  ~ In (cp "<") pre ->
  re_sub tag_pattern (pre ++ s) = pre ++ re_sub tag_pattern s.
Proof.
  unfold re_sub. induction pre as [|c pre IH]; intros H; [reflexivity|].
  cbn [app sub_from]. unfold match_len. rewrite tag_no_match_at.
  - f_equal. apply IH. intros Hin. apply H. now right.
  - intros ->. apply H. now left.
Qed.

Lemma not_gt_all body : ~ In (cp ">") body -> forallb not_gt body = true.
Proof.
  intros H. apply forallb_forall. intros c Hc. unfold not_gt.
  apply negb_true_iff, Z.eqb_neq. intros ->. contradiction.
Qed.

Lemma sanitize_steps s :
  sanitize_input s
  = strip (re_sub control_pattern (escape (re_sub tag_pattern s))).
Proof. destruct s; reflexivity. Qed.

(** X12: A tag is removed (line 32): [<], then one or more characters other
    than [>], then [>], when no [<] comes before it, disappears from
    the result with everything between the brackets. *)
Theorem sanitize_removes_tag pre body post :
  ~ In (cp "<") pre -> body <> [] -> ~ In (cp ">") body ->
  sanitize_input (pre ++ lit "<" ++ body ++ lit ">" ++ post)
  = sanitize_input (pre ++ post).
Proof.
  intros Hpre Hne Hb. rewrite !sanitize_steps.
  rewrite (re_sub_tag_prefix pre post Hpre).
  rewrite (re_sub_tag_prefix pre _ Hpre).
  change (lit "<" ++ body ++ lit ">" ++ post)
    with (cp "<" :: body ++ cp ">" :: post).
  now rewrite (re_sub_tag_at body post Hne (not_gt_all body Hb)).
Qed.

Lemma sanitize_removes_tag_witness :
  sanitize_input
    (lit "Hello " ++ lit "<" ++ lit "script src=x" ++ lit ">" ++ lit " world")
  = sanitize_input (lit "Hello " ++ lit " world").
Proof.
  apply sanitize_removes_tag.
  - vm_compute. intuition discriminate.
  - discriminate.
  - vm_compute. intuition discriminate.
Defined.

Lemma tag_needs_gt s :
  ~ In (cp ">") s -> match_here tag_pattern anywhere s = None.
Proof.
  intros H. destruct (match_here tag_pattern anywhere s) as [r|] eqn:E;
    [|reflexivity]. exfalso. unfold tag_pattern, Lit in E.
  apply match_One_inv in E as (c & s1 & -> & _ & E).
  apply match_Many_inv in E as (body & s2 & -> & _ & _ & E).
  apply match_One_inv in E as (d & s3 & -> & Hd & _).
  apply Z.eqb_eq in Hd. subst d. apply H. right.
  apply in_or_app. right. now left.
Qed.

Lemma re_sub_tag_unclosed s : ~ In (cp ">") s -> re_sub tag_pattern s = s.
Proof.
  unfold re_sub. induction s as [|c s IH]; intros H; [reflexivity|].
  cbn [sub_from]. unfold match_len. rewrite (tag_needs_gt _ H).
  f_equal. apply IH. intros Hin. apply H. now right.
Qed.

(** X13: Without a closing [>] nothing is a tag (line 32): the text keeps
    every character through tag removal, and each [<] is escaped
    instead. *)
Theorem sanitize_unclosed_kept s :
  ~ In (cp ">") s ->
  sanitize_input s
  = strip (filter (fun c => negb (is_control c)) (escape s)).
Proof.
  intros H. rewrite sanitize_steps, re_sub_tag_unclosed by exact H.
  unfold control_pattern. now rewrite re_sub_class.
Qed.

Lemma sanitize_unclosed_kept_witness :
  sanitize_input (lit "1 < 2")
  = strip (filter (fun c => negb (is_control c)) (escape (lit "1 < 2"))).
Proof.
  apply sanitize_unclosed_kept. vm_compute. intuition discriminate.
Defined.

(* ------------------------------------------------------------------ *)
(** ** Escaping, character by character *)

Lemma replace_app old new a b :
  replace old new (a ++ b) = replace old new a ++ replace old new b.
Proof.
  induction a as [|c a IH]; [reflexivity|]. simpl.
  now rewrite IH, app_assoc.
Qed.

Lemma escape_app a b : escape (a ++ b) = escape a ++ escape b.
Proof. unfold escape. now rewrite !replace_app. Qed.

Lemma escape_one c : escape [c] = entity c.
Proof.
  unfold escape, entity. cbn [replace app].
  destruct (Z.eqb_spec c (cp "&")) as [-> | H1]; [reflexivity|].
  cbn [replace app].
  destruct (Z.eqb_spec c (cp "<")) as [-> | H2]; [reflexivity|].
  cbn [replace app].
  destruct (Z.eqb_spec c (cp ">")) as [-> | H3]; [reflexivity|].
  cbn [replace app].
  destruct (Z.eqb_spec c 34) as [-> | H4]; [reflexivity|].
  cbn [replace app].
  destruct (Z.eqb_spec c (cp "'")) as [-> | H5]; reflexivity.
Qed.

Lemma escape_cons c s : escape (c :: s) = entity c ++ escape s.
Proof. change (c :: s) with ([c] ++ s). now rewrite escape_app, escape_one. Qed.

Lemma escape_snoc s c : escape (s ++ [c]) = escape s ++ entity c.
Proof. now rewrite escape_app, escape_one. Qed.

(** An entity starts with [&] and ends with [;], and has no control
    character; any other character is written as it is. *)
Lemma entity_cases c :
  (is_special c = true /\ is_control c = false /\ isspace c = false /\
   forallb (fun d => negb (is_control d)) (entity c) = true /\
   exists mid, entity c = cp "&" :: mid ++ [cp ";"])
  \/ (is_special c = false /\ entity c = [c]).
Proof.
  unfold entity, is_special.
  destruct (Z.eqb_spec c (cp "&")) as [-> | H1];
    [left; repeat split; try reflexivity; now exists (lit "amp")|].
  destruct (Z.eqb_spec c (cp "<")) as [-> | H2];
    [left; repeat split; try reflexivity; now exists (lit "lt")|].
  destruct (Z.eqb_spec c (cp ">")) as [-> | H3];
    [left; repeat split; try reflexivity; now exists (lit "gt")|].
  destruct (Z.eqb_spec c 34) as [-> | H4];
    [left; repeat split; try reflexivity; now exists (lit "quot")|].
  destruct (Z.eqb_spec c (cp "'")) as [-> | H5];
    [left; repeat split; try reflexivity; now exists (lit "#x27")|].
  right. split; reflexivity.
Qed.

Lemma filter_escape s :
  filter (fun c => negb (is_control c)) (escape s)
  = escape (filter (fun c => negb (is_control c)) s).
Proof.
  induction s as [|c s IH]; [reflexivity|].
  rewrite escape_cons, filter_app, IH. cbn [filter].
  destruct (entity_cases c) as [(_ & Hc & _ & Hf & _) | (_ & E)].
  - rewrite Hc. cbn [negb]. now rewrite escape_cons, filter_all.
  - rewrite E. cbn [filter]. destruct (negb (is_control c)); [|reflexivity].
    now rewrite escape_cons, E.
Qed.

Lemma lstrip_escape s : lstrip (escape s) = escape (lstrip s).
Proof.
  induction s as [|c s IH]; [reflexivity|].
  rewrite escape_cons. cbn [lstrip].
  destruct (entity_cases c) as [(_ & _ & Hs & _ & mid & E) | (_ & E)].
  - rewrite Hs, escape_cons, E. reflexivity.
  - rewrite E. cbn [app lstrip]. destruct (isspace c); [exact IH|].
    now rewrite escape_cons, E.
Qed.

Lemma rstrip_snoc s c :
  rstrip (s ++ [c]) = if isspace c then rstrip s else s ++ [c].
Proof.
  unfold rstrip. rewrite rev_app_distr. cbn [rev app lstrip].
  destruct (isspace c); [reflexivity|]. cbn [rev]. now rewrite rev_involutive.
Qed.

Lemma rstrip_escape s : rstrip (escape s) = escape (rstrip s).
Proof.
  induction s as [|c s IH] using rev_ind; [reflexivity|].
  rewrite escape_snoc, (rstrip_snoc s c).
  destruct (entity_cases c) as [(_ & _ & Hs & _ & mid & E) | (_ & E)].
  - rewrite Hs, escape_snoc, E.
    change (cp "&" :: mid ++ [cp ";"]) with ((cp "&" :: mid) ++ [cp ";"]).
    rewrite app_assoc, rstrip_snoc. reflexivity.
  - rewrite E, rstrip_snoc. destruct (isspace c); [exact IH|].
    now rewrite escape_snoc, E.
Qed.

(** X14: The steps of [sanitize_input] commute with the escaping (lines
    32-41): the result is the [html.escape] of the text without its
    tags, without control characters and trimmed, so every [&] of the
    result starts an entity. *)
Theorem sanitize_escapes_last s :
  sanitize_input s
  = escape (strip (filter (fun c => negb (is_control c))
                     (re_sub tag_pattern s))).
Proof.
  rewrite sanitize_steps. unfold control_pattern. rewrite re_sub_class.
  rewrite filter_escape. unfold strip.
  now rewrite lstrip_escape, rstrip_escape.
Qed.

(* ------------------------------------------------------------------ *)
(** ** Accepted addresses *)

Lemma count_none (P : Z -> bool) s c :
  forallb P s = true -> P c = false -> count_occ Z.eq_dec s c = 0%nat.
Proof.
  intros H Hc. induction s as [|d s IH]; [reflexivity|].
  simpl in H. apply andb_true_iff in H as [Hd H]. simpl.
  destruct (Z.eq_dec d c); [congruence | auto].
Qed.

(** X15: An accepted address (lines 53-54) has exactly one [@] and at least
    six characters. *)
Theorem accepted_email_shape email :
  validate_email email = true ->
  count_occ Z.eq_dec email (cp "@") = 1%nat /\ (6 <= length email)%nat.
Proof.
  intros H. apply validate_email_spec in H.
  assert (S0 : forall s, spec_email_matches s ->
                 count_occ Z.eq_dec s (cp "@") = 1%nat /\ (6 <= length s)%nat).
  { intros s (local & domain & tld & -> & Hnl & Hl & Hnd & Hd & Hnt & Ht).
    rewrite !count_occ_app, !length_app.
    rewrite (count_none _ _ _ Hl), (count_none _ _ _ Hd),
      (count_none _ _ _ Ht) by reflexivity.
    apply length_pos_nonempty in Hnl, Hnd. split; [reflexivity|].
    cbn [lit map list_ascii_of_string length]. lia. }
  destruct H as [H | (s' & -> & H)].
  - now apply S0.
  - apply S0 in H as [C L]. rewrite count_occ_app, length_app, C.
    split; [reflexivity | lia].
Qed.

Lemma accepted_email_shape_witness :
  count_occ Z.eq_dec (lit "a@b.co") (cp "@") = 1%nat
  /\ (6 <= length (lit "a@b.co"))%nat.
Proof. apply accepted_email_shape. reflexivity. Defined.

(* ------------------------------------------------------------------ *)
(** ** The text that is sent *)





(** X17: The address that is sent is the address that was validated (lines
    107, 121-124, 146): for a submission that passed validation,
    [sanitize_input] leaves the trimmed email as it is. *)
Theorem validated_email_sent_unchanged form :
  validation_errors_of form = [] ->
  sanitize_input (field form "email") = field form "email".
Proof.
  unfold validation_errors_of. rewrite collect_by_field, app_nil_4.
  intros (_ & He & _).
  assert (V : validate_email (field form "email") = true).
  { unfold email_errors in He.
    destruct (negb (truthy (field form "email"))); [discriminate|].
    destruct (validate_email (field form "email")); [reflexivity|].
    discriminate. }
  apply field_email_exact, spec_email_chars in V.
  rewrite forallb_forall in V.
  assert (P : forall c, In c (field form "email") ->
                is_special c = false /\ is_control c = false /\
                isspace c = false).
  { intros c Hc. apply email_char_plain. now apply V. }
  apply sanitize_fixed.
  - intros Hin. apply P in Hin as (Hs & _). discriminate.
  - apply forallb_forall. intros c Hc. apply P in Hc as (-> & _). reflexivity.
  - apply forallb_forall. intros c Hc.
    apply P in Hc as (_ & -> & _). reflexivity.
  - apply strip_no_space, forallb_forall. intros c Hc.
    apply P in Hc as (_ & _ & ->). reflexivity.
Qed.

Lemma validated_email_sent_unchanged_witness :
  sanitize_input (field form_ok "email") = field form_ok "email".
Proof. apply validated_email_sent_unchanged. reflexivity. Defined.
